(** * gmaps-scraper: session, ingestion and export logic of the control panel

    A shallow embedding of [frontend/src/App.jsx]: the React component that
    drives the scraper engine over a WebSocket, buffers the log lines and the
    rows it streams back, and exports the rows as CSV or as a spreadsheet.

    - [JS] holds the pieces of the JavaScript runtime the component calls
      (strings, truthiness, [Array.prototype.join], objects with ordered keys).
    - [App] holds the component: its state hooks, the setter calls a handler
      issues (in program order) and the handlers themselves.
    - [Csv] holds an RFC 4180 reader, used to state that the exported CSV can
      be read back.

    Strings are sequences of code units below 256, numbers are the
    integer-valued ones, and the values of a record's fields are primitives
    (the wire protocol carries text fields). *)

From Stdlib Require Import ZArith Ascii String List Lia Bool DecimalString.
From stdpp Require Import base option list gmap strings.
Import ListNotations.
Local Open Scope string_scope.
Local Open Scope list_scope.

(* ===================================================================== *)
(** ** The JavaScript runtime, as far as the component uses it *)
(* ===================================================================== *)
Module JS.

(** The double quote, the comma and the two line terminators. *)
Definition dquote : ascii := "034"%char.
Definition comma : ascii := ","%char.
Definition LF : ascii := "010"%char.
Definition CR : ascii := "013"%char.

(** One-character string. *)
Definition str (c : ascii) : string := String c "".

(** *** Strings *)

(** WhiteSpace and LineTerminator code units below 256: TAB, LF, VT, FF,
    CR, SP and NBSP. *)
Definition is_white_space (c : ascii) : bool :=
  existsb (Nat.eqb (nat_of_ascii c)) [9; 10; 11; 12; 13; 32; 160]%nat.

Fixpoint trimStart (s : string) : string :=
  match s with
  | "" => ""
  | String c r => if is_white_space c then trimStart r else s
  end.

Fixpoint trimEnd (s : string) : string :=
  match s with
  | "" => ""
  | String c r =>
      let r' := trimEnd r in
      if is_white_space c && (r' =? "")%string then "" else String c r'
  end.

(** [s.trim()] *)
Definition trim (s : string) : string := trimEnd (trimStart s).

(** [s.toUpperCase()] on Basic Latin; the column keys of the component are
    Basic Latin, other code units are passed through. *)
Definition upper_char (c : ascii) : ascii :=
  let n := nat_of_ascii c in
  if (97 <=? n)%nat && (n <=? 122)%nat then ascii_of_nat (n - 32) else c.

Fixpoint toUpperCase (s : string) : string :=
  match s with
  | "" => ""
  | String c r => String (upper_char c) (toUpperCase r)
  end.

(** [s.replace(/[...]/g, by)]: every code unit of the class [p] is replaced
    by [by], scanning left to right. *)
Fixpoint replace_all (p : ascii -> bool) (by_ : string) (s : string) : string :=
  match s with
  | "" => ""
  | String c r =>
      if p c then by_ +:+ replace_all p by_ r
      else String c (replace_all p by_ r)
  end.

(** [s.slice(0, n)] *)
Definition slice0 (n : nat) (s : string) : string := substring 0 n s.

(** [n.toString()] for an array length. *)
Definition nat_toString (n : nat) : string :=
  NilZero.string_of_uint (Nat.to_uint n).

(** *** Arrays *)

(** [a.join(sep)] on an array of strings. *)
Fixpoint join (sep : string) (a : list string) : string :=
  match a with
  | [] => ""
  | [x] => x
  | x :: r => x +:+ sep +:+ join sep r
  end.

(** [a.slice(-k)]: the last [k] elements, the whole array when it has
    fewer. *)
Definition slice_last {A} (k : nat) (a : list A) : list A :=
  drop (length a - k) a.

(** *** Values *)

Inductive value : Type :=
| VUndefined
| VNull
| VBool (b : bool)
| VNum (n : Z)
| VStr (s : string).

#[global] Instance value_eq_dec : EqDecision value.
Proof. solve_decision. Defined.

(** ToBoolean *)
Definition toBoolean (v : value) : bool :=
  match v with
  | VUndefined | VNull => false
  | VBool b => b
  | VNum n => negb (n =? 0)%Z
  | VStr s => negb (s =? "")%string
  end.

(** [a || b] *)
Definition or_else (a b : value) : value := if toBoolean a then a else b.

(** [v !== s] for a string literal [s] *)
Definition strict_neq_str (v : value) (s : string) : bool :=
  match v with
  | VStr t => negb (t =? s)%string
  | _ => true
  end.

(** [v.toString()]: a method call, so a TypeError ([None]) on [undefined]
    and [null]. *)
Definition toString (v : value) : option string :=
  match v with
  | VUndefined | VNull => None
  | VBool true => Some "true"
  | VBool false => Some "false"
  | VNum n => Some (NilZero.string_of_int (Z.to_int n))
  | VStr s => Some s
  end.

(** *** Objects whose key order is observed

    String keys in insertion order ([Object.keys]); assigning an existing
    key keeps its place, a new key goes last. *)
Definition object (V : Type) : Type := list (string * V).

Definition keys {V} (o : object V) : list string := map fst o.

Fixpoint get {V} (o : object V) (k : string) : option V :=
  match o with
  | [] => None
  | (k', v) :: r => if (k' =? k)%string then Some v else get r k
  end.

Fixpoint set {V} (o : object V) (k : string) (v : V) : object V :=
  match o with
  | [] => [(k, v)]
  | (k', v') :: r =>
      if (k' =? k)%string then (k, v) :: r else (k', v') :: set r k v
  end.

(** [s.startsWith(p)] and [s.includes(p)] *)
Definition startsWith (p s : string) : bool := String.prefix p s.

Fixpoint includes (p s : string) : bool :=
  String.prefix p s ||
  match s with
  | "" => false
  | String _ r => includes p r
  end.

End JS.

(* ===================================================================== *)
(** ** The component *)
(* ===================================================================== *)
Module App.
Import JS.

(** A collected listing: the payload of a [row] frame, a JSON object read by
    key ([row.link], [row[col]]); a key that is absent reads [undefined]. *)
Abbreviation Row := (gmap string value).

Definition prop (row : Row) (k : string) : value := default VUndefined (row !! k).

(** The object handed to [JSON.stringify] and then to [socket.send]. *)
Inductive Outbound : Type :=
| Start (keyword : string) (headless : bool) (ignore_urls : list value)
| Stop.

(** A parsed inbound frame, by its [type]. *)
Inductive Inbound : Type :=
| Log (payload : string)
| RowFrame (payload : Row)
| Status (payload : string)
| Image (payload : string)
| Other.

(** The [useState] hooks of [App]. [socket] is [true] once [setSocket(ws)]
    has run, [liveImage] is [None] for [null]. *)
Record AppState : Type := mkApp {
  socket : bool;
  status : string;
  logs : list string;
  rows : list Row;
  keyword : string;
  lastKeyword : string;
  headless : bool;
  liveImage : option string;
  viewMode : string;
  exportFormat : string;
  columns : object bool;
  showColMenu : bool
}.

(** The column keys, in the order of the initial [columns] object. *)
Definition canonical : list string :=
  ["name"; "address"; "phone"; "website"; "rating"; "link"].

Definition init : AppState := {|
  socket := false;
  status := "IDLE";
  logs := [];
  rows := [];
  keyword := "";
  lastKeyword := "";
  headless := true;
  liveImage := None;
  viewMode := "live";
  exportFormat := "xlsx";
  columns := map (fun k => (k, true)) canonical;
  showColMenu := false
|}.

(** What a handler leaves outside the hooks. *)
Record Sheet : Type := mkSheet {
  sheet_name : string;
  sheet_rows : list (object value);   (* the array given to json_to_sheet *)
  sheet_cols : list nat               (* the [wch] widths of ['!cols'] *)
}.

Inductive File : Type :=
| CsvFile (name : string) (content : string)
| XlsxFile (name : string) (sheet : Sheet).

Record World : Type := mkWorld {
  app : AppState;
  sent : list Outbound;      (* frames given to [socket.send], oldest first *)
  alerts : list string;      (* [alert] boxes shown, oldest first *)
  files : list File          (* files handed to the browser, oldest first *)
}.

(** The calls a handler makes, in program order. A state setter takes an
    updater, as React applies them: [setRows([])] is the constant updater. *)
Inductive Cmd : Type :=
| SetSocket (v : bool)
| SetStatus (v : string)
| SetLogs (upd : list string -> list string)
| SetRows (upd : list Row -> list Row)
| SetKeyword (v : string)
| SetLastKeyword (v : string)
| SetHeadless (v : bool)
| SetLiveImage (v : option string)
| SetViewMode (v : string)
| SetExportFormat (v : string)
| SetColumns (upd : object bool -> object bool)
| SetShowColMenu (v : bool)
| SocketSend (m : Outbound)
| Alert (msg : string)
| Download (f : File).

Definition update (c : Cmd) (s : AppState) : AppState :=
  let '(mkApp so st lo ro ke la he li vi ex co sh) := s in
  match c with
  | SetSocket v => mkApp v st lo ro ke la he li vi ex co sh
  | SetStatus v => mkApp so v lo ro ke la he li vi ex co sh
  | SetLogs f => mkApp so st (f lo) ro ke la he li vi ex co sh
  | SetRows f => mkApp so st lo (f ro) ke la he li vi ex co sh
  | SetKeyword v => mkApp so st lo ro v la he li vi ex co sh
  | SetLastKeyword v => mkApp so st lo ro ke v he li vi ex co sh
  | SetHeadless v => mkApp so st lo ro ke la v li vi ex co sh
  | SetLiveImage v => mkApp so st lo ro ke la he v vi ex co sh
  | SetViewMode v => mkApp so st lo ro ke la he li v ex co sh
  | SetExportFormat v => mkApp so st lo ro ke la he li vi v co sh
  | SetColumns f => mkApp so st lo ro ke la he li vi ex (f co) sh
  | SetShowColMenu v => mkApp so st lo ro ke la he li vi ex co v
  | SocketSend _ | Alert _ | Download _ => s
  end.

Definition exec (w : World) (c : Cmd) : World :=
  match c with
  | SocketSend m => mkWorld (app w) (sent w ++ [m]) (alerts w) (files w)
  | Alert msg => mkWorld (app w) (sent w) (alerts w ++ [msg]) (files w)
  | Download f => mkWorld (app w) (sent w) (alerts w) (files w ++ [f])
  | _ => mkWorld (update c (app w)) (sent w) (alerts w) (files w)
  end.

Definition run (cs : list Cmd) (w : World) : World := fold_left exec cs w.

(** *** Lines 71-73: the ingestion buffers *)

Definition setLogs (v : list string) : Cmd := SetLogs (fun _ => v).
Definition setRows (v : list Row) : Cmd := SetRows (fun _ => v).

(** [prev => [...prev.slice(-99), msg]] *)
Definition push_log (msg : string) (prev : list string) : list string :=
  slice_last 99 prev ++ [msg].

Definition addLog (msg : string) : Cmd := SetLogs (push_log msg).

Definition addRow (row : Row) : Cmd := SetRows (fun prev => prev ++ [row]).

(** *** Lines 46-61: the socket callbacks *)

Definition onopen : list Cmd := [addLog "> Connected to Scraper Engine."].

Definition onmessage (msg : Inbound) : list Cmd :=
  match msg with
  | Log p => [addLog p]
  | RowFrame p => [addRow p]
  | Status p => [SetStatus p]
  | Image p => [SetLiveImage (Some p)]
  | Other => []
  end.

Definition onclose : list Cmd :=
  [addLog "> Disconnected from Engine."; SetStatus "OFFLINE"].

(** *** Lines 75-115: [toggleScrape] *)

(** [rows.map(r => r.link).filter(l => l && l !== "N/A")] *)
Definition existing_links (rs : list Row) : list value :=
  List.filter (fun l => toBoolean l && strict_neq_str l "N/A")
              (map (fun r => prop r "link") rs).

Definition toggleScrape (s : AppState) : list Cmd :=
  if negb (socket s) then []
  else if (status s =? "IDLE")%string || (status s =? "STOPPED")%string then
    if (trim (keyword s) =? "")%string then
      [addLog "> Error: Keyword required."]
    else
      let currentKey := trim (keyword s) in
      if negb (currentKey =? lastKeyword s)%string then
        [ setRows [];
          setLogs [];
          SetLiveImage None;
          SetLastKeyword currentKey;
          addLog ("> Starting NEW session for: " +:+ str dquote +:+ currentKey
                  +:+ str dquote);
          SocketSend (Start currentKey (headless s) []) ]
      else
        let ignoreUrls := existing_links (rows s) in
        [ addLog ("> RESUMING session for: " +:+ str dquote +:+ currentKey
                  +:+ str dquote);
          addLog ("> Sending " +:+ nat_toString (length ignoreUrls)
                  +:+ " existing links to skip.");
          SocketSend (Start currentKey (headless s) ignoreUrls) ]
  else
    [SocketSend Stop].

(** *** Line 123: [toggleColumn] *)

(** [prev => ({ ...prev, [col]: !prev[col] })]; a key that is absent reads
    [undefined], whose negation is [true]. *)
Definition toggleColumn (col : string) : list Cmd :=
  [SetColumns (fun prev => set prev col (negb (default false (get prev col))))].

(** *** Lines 125-178: [exportData] *)

(** What [exportData] reads from the page: whether [window.XLSX] has loaded
    and the value of [new Date().toISOString()]. *)
Record Page : Type := mkPage {
  XLSX : bool;
  now : string
}.

(** [Object.keys(columns).filter(k => columns[k])] *)
Definition activeCols (cols : object bool) : list string :=
  List.filter (fun k => default false (get cols k)) (keys cols).

Definition is_colon_or_dot (c : ascii) : bool :=
  Ascii.eqb c ":"%char || Ascii.eqb c "."%char.

(** [new Date().toISOString().replace(/[:.]/g, "-").slice(0, 19)] *)
Definition timestamp (p : Page) : string :=
  slice0 19 (replace_all is_colon_or_dot "-" (now p)).

(** Lines 140-146: one projected row of the spreadsheet. *)
Definition filteredRow (active : list string) (row : Row) : object value :=
  fold_left (fun newRow col => set newRow (toUpperCase col) (prop row col))
            active [].

Definition is_dquote (c : ascii) : bool := Ascii.eqb c dquote.

(** Lines 162-164: one CSV field; [None] when [toString] throws. *)
Definition csvField (row : Row) (col : string) : option string :=
  let val := or_else (prop row col) (VStr "") in
  val ← toString val;
  let val := replace_all is_dquote (str dquote +:+ str dquote) val in
  Some (str dquote +:+ val +:+ str dquote).

(** Lines 160-166 *)
Definition csvRow (active : list string) (row : Row) : option string :=
  fields ← mapM (csvField row) active;
  Some (join "," fields).

(** Lines 159-168 *)
Definition csvContent (active : list string) (rs : list Row) : option string :=
  let headers := map toUpperCase active in
  csvRows ← mapM (csvRow active) rs;
  Some (join (str LF) (join "," headers :: csvRows)).

(** The calls of [exportData]; [None] when it ends in an uncaught
    exception. *)
Definition exportData (p : Page) (s : AppState) : option (list Cmd) :=
  if (length (rows s) =? 0)%nat then
    Some [Alert "No data to export!"]
  else
    let active := activeCols (columns s) in
    if (exportFormat s =? "xlsx")%string then
      if negb (XLSX p) then
        Some [Alert "Export library loading... Try again in 2s."]
      else
        let filteredRows := map (filteredRow active) (rows s) in
        let wscols := map (fun _ => 20%nat) active in
        Some [Download (XlsxFile ("gmaps_export_" +:+ timestamp p +:+ ".xlsx")
                                 (mkSheet "Data" filteredRows wscols))]
    else
      content ← csvContent active (rows s);
      Some [Download (CsvFile ("gmaps_export_" +:+ timestamp p +:+ ".csv")
                              content)].

(** *** The events of the page and the handler each one runs *)

Inductive Event : Type :=
| Mounted                        (* the connection effect: [setSocket(ws)] *)
| SocketOpen
| SocketMessage (msg : Inbound)
| SocketClose
| KeywordInput (v : string)      (* [onChange] of the keyword box *)
| HeadlessInput (v : bool)
| ToggleClick                    (* the START/STOP button, or Enter *)
| ColumnClick (col : string)     (* a checkbox of the column menu *)
| ColMenuClick (v : bool)
| ViewClick (v : string)
| FormatClick (v : string)
| ExportClick (p : Page).

(** The column menu has one checkbox per key of [columns], so a click on
    anything else does not exist. *)
Definition handler (e : Event) (s : AppState) : option (list Cmd) :=
  match e with
  | Mounted => Some [SetSocket true]
  | SocketOpen => Some onopen
  | SocketMessage msg => Some (onmessage msg)
  | SocketClose => Some onclose
  | KeywordInput v => Some [SetKeyword v]
  | HeadlessInput v => Some [SetHeadless v]
  | ToggleClick => Some (toggleScrape s)
  | ColumnClick col =>
      Some (if bool_decide (col ∈ keys (columns s)) then toggleColumn col
            else [])
  | ColMenuClick v => Some [SetShowColMenu v]
  | ViewClick v => Some [SetViewMode v]
  | FormatClick v => Some [SetExportFormat v]
  | ExportClick p => exportData p s
  end.

(** One event, run to completion; an exception leaves the calls made before
    it, and [exportData] makes none before [toString]. *)
Definition step (w : World) (e : Event) : World :=
  match handler e (app w) with
  | Some cs => run cs w
  | None => w
  end.

Definition boot : World := mkWorld init [] [] [].

Definition reachable (w : World) : Prop :=
  exists es : list Event, w = fold_left step es boot.

(** *** Vocabulary of the statements *)

(** The START branch of [toggleScrape]: a socket, and status IDLE or
    STOPPED. *)
Definition start_request (s : AppState) : Prop :=
  socket s = true /\ (status s = "IDLE" \/ status s = "STOPPED").

(** A click on the START/STOP button. *)
Definition click (w : World) : World := step w ToggleClick.

(** The hooks other than [logs] agree. *)
Definition same_but_logs (s s' : AppState) : Prop :=
  socket s' = socket s /\ status s' = status s /\ rows s' = rows s /\
  keyword s' = keyword s /\ lastKeyword s' = lastKeyword s /\
  headless s' = headless s /\ liveImage s' = liveImage s /\
  viewMode s' = viewMode s /\ exportFormat s' = exportFormat s /\
  columns s' = columns s /\ showColMenu s' = showColMenu s.

(** The text of a field in the export: [(v || "").toString()]. *)
Definition field_text (v : value) : string :=
  default "" (toString (or_else v (VStr ""))).

(** The mask value of a column. *)
Definition enabled (s : AppState) (col : string) : bool :=
  default false (get (columns s) col).

(** [d] is [t] with every double quote written twice. *)
Inductive Doubled : string -> string -> Prop :=
| Doubled_nil : Doubled "" ""
| Doubled_quote t d :
    Doubled t d -> Doubled (String dquote t) (String dquote (String dquote d))
| Doubled_other c t d :
    c <> dquote -> Doubled t d -> Doubled (String c t) (String c d).

(** The skip-list as the specification words it: the link values of the
    buffered records without repetition, a record without a link or with the
    sentinel left out. *)
Definition set_of_distinct_links (rs : list Row) (urls : list value) : Prop :=
  NoDup urls /\
  forall v, v ∈ urls <->
    (exists r, r ∈ rs /\ prop r "link" = v) /\ v <> VUndefined /\ v <> VStr "N/A".

(** What every handler keeps true of the hooks: the log within its cap and
    the column mask on the six keys in their order. *)
Definition invariant (s : AppState) : Prop :=
  length (logs s) <= 100 /\ keys (columns s) = canonical.

(** A call that keeps the invariant. *)
Definition keeps (c : Cmd) : Prop :=
  forall s, invariant s -> invariant (update c s).

(** A CSV field as line 164 builds it from the text [t]. *)
Definition quoted (t : string) : string :=
  str dquote +:+ replace_all is_dquote (str dquote +:+ str dquote) t
  +:+ str dquote.

(** The fields of one record under the columns [active]. *)
Definition csv_fields (active : list string) (row : Row) : list string :=
  map (fun col => quoted (field_text (prop row col))) active.

(** *** Concrete states *)

Definition listing (name link : string) : Row :=
  <["name" := VStr name]> (<["link" := VStr link]> ∅).

(** Stopped after a run for "Coffee NYC" in which the engine delivered the
    same place twice. *)
Definition stopped_with_repeat : AppState :=
  mkApp true "STOPPED" ["> Scraper stopped."]
        [listing "Cafe A" "https://maps.example/a";
         listing "Cafe A" "https://maps.example/a";
         listing "Cafe B" "N/A"]
        " Coffee NYC " "Coffee NYC" true (Some "iVBORw0KGgo=") "live" "csv"
        (columns init) false.

(** The same buffers, a blank keyword box. *)
Definition stopped_blank : AppState :=
  mkApp true "STOPPED" ["> Scraper stopped."]
        [listing "Cafe A" "https://maps.example/a"]
        "   " "Coffee NYC" true (Some "iVBORw0KGgo=") "live" "csv"
        (columns init) false.

(** The same buffers, another keyword typed. *)
Definition stopped_other_keyword : AppState :=
  mkApp true "STOPPED" ["> Scraper stopped."]
        [listing "Cafe A" "https://maps.example/a"]
        "Gyms NYC" "Coffee NYC" true (Some "iVBORw0KGgo=") "live" "csv"
        (columns init) false.

Definition world_of (s : AppState) : World := mkWorld s [] [] [].

End App.

(* ===================================================================== *)
(** ** An RFC 4180 reader *)
(* ===================================================================== *)
Module Csv.
Import JS.

(** Where the reader is: at the start of a record, at the start of a field
    after a comma, inside a bare field, inside a quoted field, after a quote
    met inside a quoted field, after a carriage return. *)
Inductive state : Type :=
| RecordStart | FieldStart | Bare | Quoted | QuoteSeen | CRSeen.

(** Records are separated by LF or CRLF and the last one may go without;
    fields by commas; a quoted field ends at a quote that is not doubled.
    [fld] is the field being read, [rec] the fields read of the current
    record, [done] the records read. [None] on text outside the grammar. *)
Fixpoint read (st : state) (fld : string) (rec : list string)
         (done : list (list string)) (s : string)
  : option (list (list string)) :=
  match s with
  | "" =>
      match st with
      | RecordStart => Some done
      | FieldStart | Bare | QuoteSeen => Some (done ++ [rec ++ [fld]])
      | Quoted | CRSeen => None
      end
  | String c r =>
      match st with
      | RecordStart | FieldStart =>
          if Ascii.eqb c dquote then read Quoted "" rec done r
          else if Ascii.eqb c comma then read FieldStart "" (rec ++ [""]) done r
          else if Ascii.eqb c LF then
            read RecordStart "" [] (done ++ [rec ++ [""]]) r
          else if Ascii.eqb c CR then read CRSeen "" (rec ++ [""]) done r
          else read Bare (str c) rec done r
      | Bare =>
          if Ascii.eqb c dquote then None
          else if Ascii.eqb c comma then read FieldStart "" (rec ++ [fld]) done r
          else if Ascii.eqb c LF then
            read RecordStart "" [] (done ++ [rec ++ [fld]]) r
          else if Ascii.eqb c CR then read CRSeen "" (rec ++ [fld]) done r
          else read Bare (fld +:+ str c) rec done r
      | Quoted =>
          if Ascii.eqb c dquote then read QuoteSeen fld rec done r
          else read Quoted (fld +:+ str c) rec done r
      | QuoteSeen =>
          if Ascii.eqb c dquote then read Quoted (fld +:+ str dquote) rec done r
          else if Ascii.eqb c comma then read FieldStart "" (rec ++ [fld]) done r
          else if Ascii.eqb c LF then
            read RecordStart "" [] (done ++ [rec ++ [fld]]) r
          else if Ascii.eqb c CR then read CRSeen "" (rec ++ [fld]) done r
          else None
      | CRSeen =>
          if Ascii.eqb c LF then read RecordStart "" [] (done ++ [rec]) r
          else None
      end
  end.

Definition parse (s : string) : option (list (list string)) :=
  read RecordStart "" [] [] s.

(** The states in which a field may begin. *)
Definition at_start (st : state) : Prop := st = RecordStart \/ st = FieldStart.

(** A code unit that may stand in a bare field. *)
Definition bare_char (c : ascii) : bool :=
  negb (Ascii.eqb c dquote || Ascii.eqb c comma || Ascii.eqb c LF
        || Ascii.eqb c CR).

Fixpoint bare (s : string) : bool :=
  match s with
  | "" => true
  | String c r => bare_char c && bare r
  end.

(** A header name: not empty and bare. *)
Definition header_name (s : string) : bool :=
  negb (s =? "")%string && bare s.

End Csv.

(* ===================================================================== *)
(** ** The rest of the page: the endpoint, the cells that open a window *)
(* ===================================================================== *)
Module View.
Import JS App.

(** What the connection effect reads of [window.location]. *)
Record Location : Type := mkLocation {
  protocol : string;
  host : string
}.

(** Lines 36-41: the endpoint of the socket. *)
Definition targetUrl (loc : Location) : string :=
  if includes "ngrok" (host loc) then
    let protocol := if (protocol loc =? "https:")%string then "wss:" else "ws:" in
    protocol +:+ "//" +:+ host loc +:+ "/ws"
  else "ws://127.0.0.1:8000/ws".

(** Lines 117-121: [handleKeyDown]. *)
Definition handleKeyDown (key : string) (s : AppState) : list Cmd :=
  if (key =? "Enter")%string then toggleScrape s else [].

(** What a click on a cell does: nothing, [window.open(url, '_blank')], or an
    uncaught TypeError. *)
Inductive Opened : Type :=
| Nothing
| Window (url : string)
| Throws.


(** Line 320: the link cell, [row.link && window.open(row.link, '_blank')];
    the URL argument is converted to a string. *)
Definition linkClick (row : Row) : Opened :=
  let link := prop row "link" in
  if toBoolean link then
    match toString link with
    | Some url => Window url
    | None => Throws
    end
  else Nothing.

End View.

(* ===================================================================== *)
(** ** Reading a run off its frames *)
(* ===================================================================== *)
Module Trace.
Import JS App.

(** The payloads of the row frames and of the log frames, in order. *)
Definition row_payloads (fs : list Inbound) : list Row :=
  omap (fun f => match f with RowFrame r => Some r | _ => None end) fs.

Definition log_payloads (fs : list Inbound) : list string :=
  omap (fun f => match f with Log l => Some l | _ => None end) fs.

(** The payload of the last status frame, of the last image frame. *)
Definition last_status (fs : list Inbound) (d : string) : string :=
  fold_left (fun d f => match f with Status p => p | _ => d end) fs d.

Definition last_image (fs : list Inbound) (d : option string) : option string :=
  fold_left (fun d f => match f with Image p => Some p | _ => d end) fs d.

(** The keyword of the last start frame sent, empty when there is none. *)
Definition last_start_keyword (ms : list Outbound) : string :=
  fold_left (fun k m => match m with Start k' _ _ => k' | Stop => k end) ms "".

(** A start frame carries a keyword that is trimmed and not empty and links
    that are truthy and not the sentinel. *)
Definition well_formed (m : Outbound) : Prop :=
  match m with
  | Start k _ urls =>
      k <> "" /\ trim k = k /\
      Forall (fun v => toBoolean v = true /\ v <> VStr "N/A") urls
  | Stop => True
  end.

Definition wire_invariant (w : World) : Prop :=
  lastKeyword (app w) = last_start_keyword (sent w) /\
  Forall well_formed (sent w).

(** The name a file is downloaded under. *)
Definition file_name (f : File) : string :=
  match f with
  | CsvFile name _ => name
  | XlsxFile name _ => name
  end.

(** The page is mounted and connected, [k] is typed, START is clicked, the
    engine reports RUNNING and delivers [rs], STOP is clicked, the engine
    reports STOPPED, START is clicked again. *)
Definition start_stop_resume (k : string) (rs : list Row) : list Event :=
  [Mounted; SocketOpen; KeywordInput k; ToggleClick;
   SocketMessage (Status "RUNNING")]
  ++ map (fun r => SocketMessage (RowFrame r)) rs
  ++ [ToggleClick; SocketMessage (Status "STOPPED"); ToggleClick].

End Trace.

Import JS App.

(* ===================================================================== *)
(** ** The session: start, resume, stop *)
(* ===================================================================== *)
Section Session.

Lemma click_run (w : World) : click w = run (toggleScrape (app w)) w.
Proof. reflexivity. Qed.

Lemma toggleScrape_blank (s : AppState) :
  start_request s -> trim (keyword s) = "" ->
  toggleScrape s = [addLog "> Error: Keyword required."].
Proof.
  intros [Hso Hst] Hk. unfold toggleScrape. rewrite Hso, Hk. simpl.
  destruct Hst as [-> | ->]; reflexivity.
Qed.

Lemma toggleScrape_new (s : AppState) :
  start_request s -> trim (keyword s) <> "" ->
  trim (keyword s) <> lastKeyword s ->
  toggleScrape s =
    [ setRows []; setLogs []; SetLiveImage None;
      SetLastKeyword (trim (keyword s));
      addLog ("> Starting NEW session for: " +:+ str dquote
              +:+ trim (keyword s) +:+ str dquote);
      SocketSend (Start (trim (keyword s)) (headless s) []) ].
Proof.
  intros [Hso Hst] Hk Hl. unfold toggleScrape. rewrite Hso. simpl.
  apply String.eqb_neq in Hk, Hl. rewrite Hk, Hl. simpl.
  destruct Hst as [-> | ->]; reflexivity.
Qed.

Lemma toggleScrape_resume (s : AppState) :
  start_request s -> trim (keyword s) <> "" ->
  trim (keyword s) = lastKeyword s ->
  toggleScrape s =
    [ addLog ("> RESUMING session for: " +:+ str dquote
              +:+ trim (keyword s) +:+ str dquote);
      addLog ("> Sending "
              +:+ nat_toString (length (existing_links (rows s)))
              +:+ " existing links to skip.");
      SocketSend (Start (trim (keyword s)) (headless s)
                        (existing_links (rows s))) ].
Proof.
  intros [Hso Hst] Hk Hl. unfold toggleScrape. rewrite Hso. simpl.
  apply String.eqb_neq in Hk. rewrite Hk.
  apply String.eqb_eq in Hl. rewrite Hl. simpl.
  destruct Hst as [-> | ->]; reflexivity.
Qed.

Lemma toggleScrape_stop (s : AppState) :
  socket s = true -> status s <> "IDLE" -> status s <> "STOPPED" ->
  toggleScrape s = [SocketSend Stop].
Proof.
  intros Hso H1 H2. unfold toggleScrape. rewrite Hso. simpl.
  apply String.eqb_neq in H1, H2. rewrite H1, H2. reflexivity.
Qed.

(** [existing_links] keeps exactly the truthy links other than the
    sentinel, in buffer order and as often as they occur. *)
Lemma existing_links_elem (rs : list Row) (v : value) :
  v ∈ existing_links rs <->
  (exists r, r ∈ rs /\ prop r "link" = v) /\
  toBoolean v = true /\ v <> VStr "N/A".
Proof.
  unfold existing_links. rewrite list_elem_of_In, filter_In, in_map_iff.
  rewrite andb_true_iff.
  assert (Hs : strict_neq_str v "N/A" = true <-> v <> VStr "N/A").
  { destruct v; simpl; try (split; [discriminate | reflexivity]).
    rewrite negb_true_iff, String.eqb_neq. split; congruence. }
  rewrite Hs. split.
  - intros [(r & Hr & Hin) [Hb Hn]]. repeat split; auto.
    exists r. rewrite list_elem_of_In. auto.
  - intros [(r & Hin & Hr) [Hb Hn]]. repeat split; auto.
    exists r. rewrite list_elem_of_In in Hin. auto.
Qed.

Lemma existing_links_sublist (rs : list Row) :
  sublist (existing_links rs) (map (fun r => prop r "link") rs).
Proof.
  unfold existing_links. induction rs as [|r rs IH]; simpl.
  - constructor.
  - destruct (toBoolean _ && strict_neq_str _ _); now constructor.
Qed.

Lemma existing_links_count (rs : list Row) (v : value) :
  toBoolean v = true -> v <> VStr "N/A" ->
  count_occ value_eq_dec (existing_links rs) v =
  count_occ value_eq_dec (map (fun r => prop r "link") rs) v.
Proof.
  intros Hb Hn. unfold existing_links. induction rs as [|r rs IH]; simpl.
  - reflexivity.
  - destruct (value_eq_dec (prop r "link") v) as [->|Hne].
    + rewrite Hb. replace (strict_neq_str v "N/A") with true.
      * simpl. destruct (value_eq_dec v v); congruence.
      * destruct v; simpl; auto. symmetry.
        rewrite negb_true_iff, String.eqb_neq. congruence.
    + destruct (toBoolean _ && strict_neq_str _ _); simpl; auto.
      destruct (value_eq_dec (prop r "link") v); congruence.
Qed.

(** C1, as amended. A start request whose trimmed keyword is the recorded one
    changes no hook but the log (the rows stay as they are, in their order)
    and sends one start frame whose [ignore_urls] lists the links of the
    buffered rows in buffer order, each as often as it occurs, leaving out
    the links that are missing or falsy and the sentinel; so its elements are
    exactly the distinct links of that kind. *)
Theorem resume_keeps_rows_and_lists_links (w : World) :
  start_request (app w) ->
  trim (keyword (app w)) <> "" ->
  trim (keyword (app w)) = lastKeyword (app w) ->
  same_but_logs (app w) (app (click w)) /\
  sent (click w) =
    sent w ++ [Start (trim (keyword (app w))) (headless (app w))
                     (existing_links (rows (app w)))] /\
  (forall v, v ∈ existing_links (rows (app w)) <->
     (exists r, r ∈ rows (app w) /\ prop r "link" = v) /\
     toBoolean v = true /\ v <> VStr "N/A") /\
  sublist (existing_links (rows (app w)))
          (map (fun r => prop r "link") (rows (app w))) /\
  (forall v, toBoolean v = true -> v <> VStr "N/A" ->
     count_occ value_eq_dec (existing_links (rows (app w))) v =
     count_occ value_eq_dec (map (fun r => prop r "link") (rows (app w))) v).
Proof.
  intros Hs Hk Hl. rewrite click_run, (toggleScrape_resume _ Hs Hk Hl).
  split; [|split; [|split; [|split]]].
  - destruct w as [[] ? ? ?]; simpl. repeat split.
  - destruct w as [[] ? ? ?]; reflexivity.
  - apply existing_links_elem.
  - apply existing_links_sublist.
  - apply existing_links_count.
Qed.

Lemma resume_keeps_rows_and_lists_links_witness :
  sent (click (world_of stopped_with_repeat)) =
    [Start "Coffee NYC" true
           [VStr "https://maps.example/a"; VStr "https://maps.example/a"]] /\
  rows (app (click (world_of stopped_with_repeat))) =
    rows stopped_with_repeat.
Proof.
  destruct (resume_keeps_rows_and_lists_links (world_of stopped_with_repeat))
    as (Hsame & Hsent & _).
  - split; [reflexivity | right; reflexivity].
  - vm_compute. discriminate.
  - reflexivity.
  - split; [exact Hsent | apply Hsame].
Defined.

(** C1, as the specification words it, fails: with the same place buffered
    twice the resume frame carries its link twice, so [ignore_urls] is not
    the set of distinct links. *)
Lemma resume_list_is_not_a_set :
  start_request stopped_with_repeat /\
  trim (keyword stopped_with_repeat) = lastKeyword stopped_with_repeat /\
  exists k h urls,
    sent (click (world_of stopped_with_repeat)) = [Start k h urls] /\
    ~ set_of_distinct_links (rows stopped_with_repeat) urls.
Proof.
  split; [split; [reflexivity | right; reflexivity]|].
  split; [reflexivity|].
  exists "Coffee NYC", true,
    [VStr "https://maps.example/a"; VStr "https://maps.example/a"].
  split; [reflexivity|].
  intros [Hnd _]. apply NoDup_cons in Hnd. destruct Hnd as [Hn _].
  apply Hn. left.
Qed.

(** C2. A start request whose trimmed keyword differs from the recorded one
    first empties the rows and the log and drops the live frame and records
    the keyword, then announces the session in the log, then sends a start
    frame with an empty [ignore_urls]; no other hook changes. *)
Theorem new_keyword_clears_before_sending (w : World) :
  start_request (app w) ->
  trim (keyword (app w)) <> "" ->
  trim (keyword (app w)) <> lastKeyword (app w) ->
  exists clear announce,
    toggleScrape (app w) =
      clear ++ [addLog announce]
            ++ [SocketSend (Start (trim (keyword (app w)))
                                  (headless (app w)) [])] /\
    (* once the clearing calls have run *)
    rows (app (run clear w)) = [] /\
    logs (app (run clear w)) = [] /\
    liveImage (app (run clear w)) = None /\
    lastKeyword (app (run clear w)) = trim (keyword (app w)) /\
    sent (run clear w) = sent w /\
    (* when the frame is sent *)
    rows (app (run (clear ++ [addLog announce]) w)) = [] /\
    logs (app (run (clear ++ [addLog announce]) w)) = [announce] /\
    liveImage (app (run (clear ++ [addLog announce]) w)) = None /\
    lastKeyword (app (run (clear ++ [addLog announce]) w)) =
      trim (keyword (app w)) /\
    sent (run (clear ++ [addLog announce]) w) = sent w /\
    (* when the handler is done *)
    app (click w) = app (run (clear ++ [addLog announce]) w) /\
    sent (click w) =
      sent w ++ [Start (trim (keyword (app w))) (headless (app w)) []] /\
    socket (app (click w)) = socket (app w) /\
    status (app (click w)) = status (app w) /\
    keyword (app (click w)) = keyword (app w) /\
    headless (app (click w)) = headless (app w) /\
    viewMode (app (click w)) = viewMode (app w) /\
    exportFormat (app (click w)) = exportFormat (app w) /\
    columns (app (click w)) = columns (app w) /\
    showColMenu (app (click w)) = showColMenu (app w).
Proof.
  intros Hs Hk Hl.
  exists [setRows []; setLogs []; SetLiveImage None;
          SetLastKeyword (trim (keyword (app w)))].
  exists ("> Starting NEW session for: " +:+ str dquote
          +:+ trim (keyword (app w)) +:+ str dquote).
  rewrite click_run, (toggleScrape_new _ Hs Hk Hl).
  destruct w as [[] ? ? ?]; simpl. repeat split.
Qed.

Lemma new_keyword_clears_before_sending_witness :
  rows (app (click (world_of stopped_other_keyword))) = [] /\
  liveImage (app (click (world_of stopped_other_keyword))) = None /\
  lastKeyword (app (click (world_of stopped_other_keyword))) = "Gyms NYC" /\
  sent (click (world_of stopped_other_keyword)) = [Start "Gyms NYC" true []].
Proof.
  destruct (new_keyword_clears_before_sending (world_of stopped_other_keyword))
    as (clear & announce & _ & _ & _ & _ & _ & _
        & Hrows & _ & Hlive & Hlast & _ & Happ & Hsent & _).
  - split; [reflexivity | right; reflexivity].
  - vm_compute. discriminate.
  - vm_compute. discriminate.
  - rewrite Happ. repeat split; assumption.
Defined.

(** C3 does not hold of the code: the STOP branch of [toggleScrape] is taken
    in every status other than IDLE and STOPPED. After a status frame
    OFFLINE on the open socket the button reads START and a click sends a
    stop frame. *)
Theorem stop_frame_sent_when_not_running :
  status (app (fold_left step [Mounted; SocketOpen;
                               SocketMessage (Status "OFFLINE")] boot))
    = "OFFLINE" /\
  sent (fold_left step [Mounted; SocketOpen;
                        SocketMessage (Status "OFFLINE")] boot) = [] /\
  sent (fold_left step [Mounted; SocketOpen;
                        SocketMessage (Status "OFFLINE"); ToggleClick] boot)
    = [Stop].
Proof. repeat split. Qed.

(** C4. A start request whose keyword trims to the empty string sends
    nothing, shows nothing, writes nothing, appends the diagnostic to the log
    and leaves every other hook as it was. *)
Theorem blank_keyword_rejected (w : World) :
  start_request (app w) ->
  trim (keyword (app w)) = "" ->
  sent (click w) = sent w /\
  alerts (click w) = alerts w /\
  files (click w) = files w /\
  logs (app (click w)) =
    slice_last 99 (logs (app w)) ++ ["> Error: Keyword required."] /\
  same_but_logs (app w) (app (click w)).
Proof.
  intros Hs Hk. rewrite click_run, (toggleScrape_blank _ Hs Hk).
  destruct w as [[] ? ? ?]; simpl. repeat split.
Qed.

Lemma blank_keyword_rejected_witness :
  sent (click (world_of stopped_blank)) = [] /\
  logs (app (click (world_of stopped_blank))) =
    ["> Scraper stopped."; "> Error: Keyword required."] /\
  rows (app (click (world_of stopped_blank))) = rows stopped_blank.
Proof.
  destruct (blank_keyword_rejected (world_of stopped_blank))
    as (Hsent & _ & _ & Hlogs & Hsame).
  - split; [reflexivity | right; reflexivity].
  - reflexivity.
  - split; [exact Hsent | split; [exact Hlogs | apply Hsame]].
Defined.

End Session.

(* ===================================================================== *)
(** ** The ingestion buffers *)
(* ===================================================================== *)
Section Ingestion.

Lemma slice_last_length {A} (k : nat) (a : list A) :
  length (slice_last k a) = min (length a) k.
Proof. unfold slice_last. rewrite length_drop. lia. Qed.

Lemma slice_last_app_slice {A} (k : nat) (a b : list A) :
  slice_last k (slice_last k a ++ b) = slice_last k (a ++ b).
Proof.
  unfold slice_last.
  rewrite <- (drop_app_le a b (length a - k)) by lia.
  rewrite drop_drop. f_equal.
  rewrite length_drop, !length_app. lia.
Qed.

Lemma push_log_slice (msg : string) (prev : list string) :
  push_log msg prev = slice_last 100 (prev ++ [msg]).
Proof.
  unfold push_log, slice_last. rewrite length_app. simpl.
  replace (length prev + 1 - 100) with (length prev - 99) by lia.
  rewrite drop_app_le by lia. reflexivity.
Qed.

Lemma push_log_length (msg : string) (prev : list string) :
  length (push_log msg prev) <= 100.
Proof. rewrite push_log_slice, slice_last_length. lia. Qed.

Lemma run_app (cs : list Cmd) (w : World) :
  app (run cs w) = fold_left (fun s c => update c s) cs (app w).
Proof.
  revert w. induction cs as [|c cs IH]; intros w; [reflexivity|].
  unfold run in *. simpl. rewrite IH. f_equal.
  destruct c, w as [[] ? ? ?]; reflexivity.
Qed.

Lemma run_addLog_logs (msgs : list string) (w : World) :
  logs (app (run (map addLog msgs) w)) =
  fold_left (fun l m => push_log m l) msgs (logs (app w)).
Proof.
  rewrite run_app. generalize (app w) as s.
  induction msgs as [|m msgs IH]; intros s; [reflexivity|].
  simpl. rewrite IH. destruct s; reflexivity.
Qed.

Lemma fold_push_log (msgs prev : list string) :
  length prev <= 100 ->
  fold_left (fun l m => push_log m l) msgs prev = slice_last 100 (prev ++ msgs).
Proof.
  revert prev. induction msgs as [|m msgs IH]; intros prev Hp; simpl.
  - rewrite app_nil_r. unfold slice_last.
    replace (length prev - 100) with 0 by lia. reflexivity.
  - rewrite IH by apply push_log_length.
    rewrite push_log_slice, slice_last_app_slice, <- app_assoc. reflexivity.
Qed.

Lemma keys_set_present {V} (o : object V) (k : string) (v : V) :
  k ∈ keys o -> keys (set o k v) = keys o.
Proof.
  induction o as [|[k' v'] o IH]; simpl; intros Hin.
  - inversion Hin.
  - destruct (String.eqb_spec k' k) as [->|Hne]; [reflexivity|].
    simpl. f_equal. apply IH.
    apply elem_of_cons in Hin. destruct Hin; congruence.
Qed.

Lemma exportData_no_update (p : Page) (s : AppState) (cs : list Cmd) :
  exportData p s = Some cs ->
  forall s', fold_left (fun s c => update c s) cs s' = s'.
Proof.
  unfold exportData. intros H s'.
  destruct (Nat.eqb _ _); [|destruct (String.eqb _ _);
    [destruct (negb (XLSX p))|destruct (csvContent _ _); simpl in H]];
    inversion H; subst; destruct s'; reflexivity.
Qed.

Lemma fold_keeps (cs : list Cmd) :
  Forall keeps cs ->
  forall s, invariant s ->
            invariant (fold_left (fun s c => update c s) cs s).
Proof.
  induction 1 as [|c cs Hc _ IH]; intros s Hs; simpl; auto.
Qed.

Lemma keeps_addLog (msg : string) : keeps (addLog msg).
Proof.
  intros [] [_ Hk]. split; [apply push_log_length | exact Hk].
Qed.

Lemma keeps_setLogs_nil : keeps (setLogs []).
Proof. intros [] [_ Hk]. split; [simpl; lia | exact Hk]. Qed.

Lemma keeps_toggleColumn (col : string) :
  col ∈ canonical ->
  keeps (SetColumns
           (fun prev => set prev col (negb (default false (get prev col))))).
Proof.
  intros Hin [] [Hl Hk]. split; [exact Hl|]. simpl in *.
  rewrite keys_set_present; [exact Hk | rewrite Hk; exact Hin].
Qed.

Ltac keeps_other :=
  match goal with
  | |- keeps _ => let s := fresh in intros s [? ?]; destruct s; split; assumption
  end.

Create HintDb keeps.
#[local] Hint Resolve keeps_addLog keeps_setLogs_nil : keeps.
#[local] Hint Extern 2 (keeps _) => keeps_other : keeps.

Ltac all_keep :=
  repeat (apply Forall_cons_2; [solve [auto with keeps]|]); apply Forall_nil_2.

Lemma keeps_toggleScrape (s : AppState) : Forall keeps (toggleScrape s).
Proof.
  unfold toggleScrape.
  repeat match goal with
         | |- context [if ?b then _ else _] => destruct b
         end; all_keep.
Qed.

Lemma invariant_step (w : World) (e : Event) :
  invariant (app w) -> invariant (app (step w e)).
Proof.
  intros Hinv. unfold step.
  destruct (handler e (app w)) as [cs|] eqn:Hh; [|assumption].
  rewrite run_app.
  destruct e as [| |msg| |v|v| |col|v|v|v|p]; simpl in Hh;
    try (injection Hh as <-; apply fold_keeps; [|assumption]);
    try (unfold onopen, onclose; all_keep).
  - destruct msg; all_keep.
  - apply keeps_toggleScrape.
  - case_bool_decide as Hin; [|apply Forall_nil_2].
    apply Forall_cons_2; [|apply Forall_nil_2].
    apply keeps_toggleColumn. destruct Hinv as [_ <-]. exact Hin.
  - rewrite (exportData_no_update _ _ _ Hh). assumption.
Qed.

Lemma invariant_reachable (w : World) : reachable w -> invariant (app w).
Proof.
  intros [es ->]. induction es as [|e es IH] using rev_ind.
  - split; [simpl; lia | reflexivity].
  - rewrite fold_left_app. simpl. apply invariant_step, IH.
Qed.

(** C5. In every state the page can reach the log holds at most 100 lines;
    and [n] appends to an empty log leave exactly the last [min n 100] of the
    [n] lines, oldest first. *)
Theorem log_buffer_keeps_last_100 :
  (forall w, reachable w -> length (logs (app w)) <= 100) /\
  (forall (w : World) (msgs : list string),
     logs (app w) = [] ->
     logs (app (run (map addLog msgs) w)) =
       drop (length msgs - 100) msgs /\
     length (logs (app (run (map addLog msgs) w))) = min (length msgs) 100) /\
  (forall (w : World) (msgs : list string),
     length (logs (app w)) <= 100 ->
     logs (app (run (map addLog msgs) w)) =
       slice_last 100 (logs (app w) ++ msgs)).
Proof.
  split; [|split].
  - intros w Hw. apply (invariant_reachable w Hw).
  - intros w msgs Hw.
    rewrite run_addLog_logs, Hw, fold_push_log by (simpl; lia). simpl.
    split; [reflexivity|]. apply slice_last_length.
  - intros w msgs Hw. rewrite run_addLog_logs. apply fold_push_log, Hw.
Qed.

Lemma log_buffer_keeps_last_100_witness :
  length (logs (app (fold_left step
                       [Mounted; SocketOpen; SocketMessage (Log "> one")]
                       boot))) <= 100 /\
  logs (app (run (map addLog ["> one"; "> two"; "> three"]) boot)) =
    ["> one"; "> two"; "> three"].
Proof.
  destruct log_buffer_keeps_last_100 as (Hcap & Hlast & _). split.
  - apply Hcap. exists [Mounted; SocketOpen; SocketMessage (Log "> one")].
    reflexivity.
  - apply (Hlast boot ["> one"; "> two"; "> three"]). reflexivity.
Defined.

End Ingestion.

(* ===================================================================== *)
(** ** The export *)
(* ===================================================================== *)
Section Exporting.

Lemma mapM_total {A B} (f : A -> option B) (g : A -> B) (l : list A) :
  (forall x, f x = Some (g x)) -> mapM f l = Some (map g l).
Proof.
  intros Hf. induction l as [|x l IH]; [reflexivity|].
  simpl. rewrite Hf. simpl. rewrite IH. reflexivity.
Qed.

(** [toString] is only ever called on a truthy value or on the empty
    string, so it does not throw. *)
Lemma toString_or_else (v : value) :
  toString (or_else v (VStr "")) = Some (field_text v).
Proof.
  unfold field_text, or_else.
  destruct v as [| |[]|n|t]; simpl; try reflexivity.
  - destruct (n =? 0)%Z; reflexivity.
  - destruct (t =? "")%string; reflexivity.
Qed.

Lemma field_text_falsy (v : value) : toBoolean v = false -> field_text v = "".
Proof. unfold field_text, or_else. intros ->. reflexivity. Qed.

Lemma field_text_string (t : string) : field_text (VStr t) = t.
Proof.
  unfold field_text, or_else. simpl.
  destruct (String.eqb_spec t "") as [->|]; reflexivity.
Qed.

Lemma csvField_quoted (row : Row) (col : string) :
  csvField row col = Some (quoted (field_text (prop row col))).
Proof. unfold csvField. rewrite toString_or_else. reflexivity. Qed.

Lemma csvRow_fields (active : list string) (row : Row) :
  csvRow active row = Some (join "," (csv_fields active row)).
Proof.
  unfold csvRow, csv_fields.
  rewrite (mapM_total _ _ _ (csvField_quoted row)). reflexivity.
Qed.

Lemma csvContent_lines (active : list string) (rs : list Row) :
  csvContent active rs =
  Some (join (str LF)
             (join "," (map toUpperCase active)
              :: map (fun row => join "," (csv_fields active row)) rs)).
Proof.
  unfold csvContent.
  rewrite (mapM_total _ _ _ (csvRow_fields active)). reflexivity.
Qed.

Lemma exportData_csv (p : Page) (s : AppState) :
  rows s <> [] -> exportFormat s <> "xlsx" ->
  exportData p s =
  Some [Download
          (CsvFile ("gmaps_export_" +:+ timestamp p +:+ ".csv")
             (join (str LF)
                (join "," (map toUpperCase (activeCols (columns s)))
                 :: map (fun row => join "," (csv_fields (activeCols (columns s)) row))
                        (rows s))))].
Proof.
  intros Hr Hf. unfold exportData.
  destruct (rows s) as [|r rs] eqn:Hrows; [congruence|]. simpl length.
  cbn [Nat.eqb]. apply String.eqb_neq in Hf. rewrite Hf.
  rewrite csvContent_lines. reflexivity.
Qed.

Lemma exportData_xlsx (p : Page) (s : AppState) :
  rows s <> [] -> exportFormat s = "xlsx" -> XLSX p = true ->
  exportData p s =
  Some [Download
          (XlsxFile ("gmaps_export_" +:+ timestamp p +:+ ".xlsx")
             (mkSheet "Data"
                (map (filteredRow (activeCols (columns s))) (rows s))
                (map (fun _ => 20) (activeCols (columns s)))))].
Proof.
  intros Hr Hf Hx. unfold exportData.
  destruct (rows s) as [|r rs] eqn:Hrows; [congruence|]. simpl length.
  cbn [Nat.eqb]. rewrite Hf, Hx. reflexivity.
Qed.

Lemma replace_doubled (t : string) :
  Doubled t (replace_all is_dquote (str dquote +:+ str dquote) t).
Proof.
  induction t as [|c t IH]; simpl; [constructor|].
  unfold is_dquote at 1. destruct (Ascii.eqb_spec c dquote) as [->|Hne].
  - simpl. now constructor.
  - now constructor.
Qed.

(** C9. With no record buffered, export in either format writes no file,
    shows the warning and returns normally; no hook changes and nothing is
    sent. *)
Theorem export_of_nothing_warns (p : Page) (w : World) :
  rows (app w) = [] ->
  handler (ExportClick p) (app w) = Some [Alert "No data to export!"] /\
  files (step w (ExportClick p)) = files w /\
  alerts (step w (ExportClick p)) = alerts w ++ ["No data to export!"] /\
  app (step w (ExportClick p)) = app w /\
  sent (step w (ExportClick p)) = sent w.
Proof.
  intros Hr. unfold step. simpl. unfold exportData. rewrite Hr. simpl.
  repeat split.
Qed.

Lemma export_of_nothing_warns_witness :
  files (step boot (ExportClick (mkPage true "2026-11-02T10:11:12.345Z"))) = []
  /\ alerts (step (world_of (update (SetExportFormat "csv") init))
                  (ExportClick (mkPage false "2026-11-02T10:11:12.345Z")))
     = ["No data to export!"].
Proof.
  split.
  - apply (export_of_nothing_warns _ boot). reflexivity.
  - apply (export_of_nothing_warns _
             (world_of (update (SetExportFormat "csv") init))).
    reflexivity.
Defined.

(** C7. The CSV export of a non-empty buffer is a header line followed by
    one line per record, in buffer order, joined by line feeds; a record's
    line is its fields joined by commas; a field is the text of the value
    with every double quote doubled, between two double quotes. *)
Theorem csv_fields_quoted_and_doubled (p : Page) (s : AppState) :
  rows s <> [] -> exportFormat s <> "xlsx" ->
  exists name lines,
    exportData p s =
      Some [Download
              (CsvFile name
                 (join (str LF)
                    (join "," (map toUpperCase (activeCols (columns s)))
                     :: lines)))] /\
    Forall2
      (fun row line =>
         exists fields,
           line = join "," fields /\
           Forall2
             (fun col field =>
                exists d,
                  field = str dquote +:+ d +:+ str dquote /\
                  Doubled (field_text (prop row col)) d)
             (activeCols (columns s)) fields)
      (rows s) lines.
Proof.
  intros Hr Hf. rewrite (exportData_csv p s Hr Hf).
  eexists. eexists. split; [reflexivity|].
  apply Forall2_fmap_r, Forall_Forall2_diag, Forall_forall. intros row _.
  exists (csv_fields (activeCols (columns s)) row). split; [reflexivity|].
  unfold csv_fields.
  apply Forall2_fmap_r, Forall_Forall2_diag, Forall_forall. intros col _.
  eexists. split; [reflexivity|]. apply replace_doubled.
Qed.

Lemma csv_fields_quoted_and_doubled_witness :
  exists name lines,
    exportData (mkPage true "2026-11-02T10:11:12.345Z") stopped_with_repeat =
      Some [Download
              (CsvFile name
                 (join (str LF) ("NAME,ADDRESS,PHONE,WEBSITE,RATING,LINK"
                                 :: lines)))] /\
    length lines = 3.
Proof.
  destruct (csv_fields_quoted_and_doubled
              (mkPage true "2026-11-02T10:11:12.345Z") stopped_with_repeat)
    as (name & lines & Hexp & Hlines).
  - discriminate.
  - discriminate.
  - exists name, lines. split; [exact Hexp|].
    symmetry. apply (Forall2_length _ _ _ Hlines).
Defined.

(** C10. A field whose value is falsy - absent, [null], the empty string,
    the number 0 or [false] - is exported to CSV as two double quotes; a
    record with rating 0 and the same record without a rating give the same
    line. *)
Theorem falsy_field_is_empty_in_csv :
  (forall (row : Row) (col : string),
     toBoolean (prop row col) = false ->
     csvField row col = Some (str dquote +:+ str dquote)) /\
  Forall (fun v => toBoolean v = false)
         [VUndefined; VNull; VStr ""; VNum 0; VBool false] /\
  (forall (active : list string) (row : Row),
     csvRow active (<["rating" := VNum 0]> row) =
     csvRow active (delete "rating" row)).
Proof.
  split; [|split].
  - intros row col Hv. rewrite csvField_quoted, (field_text_falsy _ Hv).
    reflexivity.
  - repeat constructor.
  - intros active row. rewrite !csvRow_fields. do 2 f_equal.
    unfold csv_fields. apply map_ext. intros col. f_equal.
    unfold prop. destruct (String.eqb_spec col "rating") as [->|Hne].
    + rewrite lookup_insert_eq, lookup_delete_eq. reflexivity.
    + rewrite lookup_insert_ne, lookup_delete_ne by congruence. reflexivity.
Qed.

Lemma falsy_field_is_empty_in_csv_witness :
  csvField (<["rating" := VNum 0]> (listing "Cafe A" "https://maps.example/a"))
           "rating"
  = Some (str dquote +:+ str dquote).
Proof.
  destruct falsy_field_is_empty_in_csv as (Hfalsy & _ & _).
  apply Hfalsy. reflexivity.
Defined.

Lemma filter_sublist {A} (f : A -> bool) (l : list A) :
  sublist (List.filter f l) l.
Proof.
  induction l as [|x l IH]; simpl; [constructor|].
  destruct (f x); now constructor.
Qed.

Lemma set_absent {V} (o : object V) (k : string) (v : V) :
  k ∉ keys o -> set o k v = o ++ [(k, v)].
Proof.
  induction o as [|[k' v'] o IH]; simpl; intros Hk; [reflexivity|].
  apply not_elem_of_cons in Hk. destruct Hk as [Hne Hk].
  destruct (String.eqb_spec k' k); [congruence|]. rewrite IH; auto.
Qed.

Lemma filteredRow_acc (row : Row) (active : list string) (acc : object value) :
  NoDup (keys acc ++ map toUpperCase active) ->
  fold_left (fun newRow col => set newRow (toUpperCase col) (prop row col))
            active acc
  = acc ++ map (fun col => (toUpperCase col, prop row col)) active.
Proof.
  revert acc. induction active as [|col active IH]; intros acc Hnd; simpl.
  - now rewrite app_nil_r.
  - apply NoDup_app in Hnd as Hnd'. destruct Hnd' as (_ & Hdis & _).
    rewrite set_absent.
    + rewrite IH, <- app_assoc; [reflexivity|].
      unfold keys. rewrite map_app, <- app_assoc. exact Hnd.
    + intros Hin. apply (Hdis _ Hin). left.
Qed.

Lemma canonical_upper_NoDup : NoDup (map toUpperCase canonical).
Proof. apply (bool_decide_unpack _). vm_compute. exact I. Qed.

Lemma active_upper_NoDup (cols : object bool) :
  keys cols = canonical -> NoDup (map toUpperCase (activeCols cols)).
Proof.
  intros Hk. unfold activeCols. rewrite Hk.
  eapply sublist_NoDup; [apply canonical_upper_NoDup|].
  apply (fmap_sublist toUpperCase), filter_sublist.
Qed.

Lemma filteredRow_entries (cols : object bool) (row : Row) :
  keys cols = canonical ->
  filteredRow (activeCols cols) row =
  map (fun col => (toUpperCase col, prop row col)) (activeCols cols).
Proof.
  intros Hk. unfold filteredRow. rewrite filteredRow_acc; [reflexivity|].
  simpl. apply active_upper_NoDup, Hk.
Qed.

Lemma toUpperCase_canonical_inj (a b : string) :
  a ∈ canonical -> b ∈ canonical -> toUpperCase a = toUpperCase b -> a = b.
Proof.
  unfold canonical. rewrite !elem_of_cons, !elem_of_nil.
  intros Ha Hb; repeat (destruct Ha as [->|Ha]; [|]); try contradiction;
    repeat (destruct Hb as [->|Hb]; [|]); try contradiction;
    vm_compute; intros H; (reflexivity || discriminate H).
Qed.

(** C6. Over a non-empty buffer and any mask on the six columns, the
    columns exported are the enabled ones in the order name, address, phone,
    website, rating, link: the CSV header is their upper-cased names and each
    line has one field per enabled column; each spreadsheet row has their
    upper-cased names as its keys, in that order, with the record's values,
    and one width per enabled column. The upper-cased name of a disabled
    column is among neither. *)
Theorem export_projects_enabled_columns (p : Page) (s : AppState) :
  rows s <> [] ->
  keys (columns s) = canonical ->
  activeCols (columns s) = List.filter (enabled s) canonical /\
  (exportFormat s <> "xlsx" ->
   exists name lines,
     exportData p s =
       Some [Download
               (CsvFile name
                  (join (str LF)
                     (join "," (map toUpperCase
                                    (List.filter (enabled s) canonical))
                      :: lines)))] /\
     Forall2
       (fun row line =>
          exists fields,
            line = join "," fields /\
            Forall2 (fun col field => csvField row col = Some field)
                    (List.filter (enabled s) canonical) fields)
       (rows s) lines) /\
  (exportFormat s = "xlsx" -> XLSX p = true ->
   exists name sheet,
     exportData p s = Some [Download (XlsxFile name sheet)] /\
     sheet_name sheet = "Data" /\
     length (sheet_cols sheet) = length (List.filter (enabled s) canonical) /\
     Forall2
       (fun row newRow =>
          newRow = map (fun col => (toUpperCase col, prop row col))
                       (List.filter (enabled s) canonical))
       (rows s) (sheet_rows sheet)) /\
  (forall col, col ∈ canonical -> enabled s col = false ->
     toUpperCase col ∉ map toUpperCase (List.filter (enabled s) canonical)).
Proof.
  intros Hr Hk.
  assert (Ha : activeCols (columns s) = List.filter (enabled s) canonical).
  { unfold activeCols. rewrite Hk. reflexivity. }
  split; [exact Ha|]. split; [|split].
  - intros Hf. rewrite (exportData_csv p s Hr Hf), Ha.
    eexists. eexists. split; [reflexivity|].
    apply Forall2_fmap_r, Forall_Forall2_diag, Forall_forall. intros row _.
    exists (csv_fields (List.filter (enabled s) canonical) row).
    split; [reflexivity|]. unfold csv_fields.
    apply Forall2_fmap_r, Forall_Forall2_diag, Forall_forall. intros col _.
    apply csvField_quoted.
  - intros Hf Hx. rewrite (exportData_xlsx p s Hr Hf Hx).
    eexists. eexists. split; [reflexivity|].
    cbn [sheet_name sheet_cols sheet_rows].
    split; [reflexivity|]. split; [rewrite length_map, Ha; reflexivity|].
    apply Forall2_fmap_r, Forall_Forall2_diag, Forall_forall. intros row _.
    unfold compose. rewrite (filteredRow_entries _ _ Hk), Ha. reflexivity.
  - intros col Hc Hoff Hin. apply list_elem_of_fmap in Hin.
    destruct Hin as (col' & Heq & Hin').
    apply list_elem_of_In, filter_In in Hin'. destruct Hin' as [Hc' Hon].
    apply list_elem_of_In in Hc'.
    apply (toUpperCase_canonical_inj _ _ Hc Hc') in Heq. congruence.
Qed.

Lemma export_projects_enabled_columns_witness :
  activeCols (columns (update (SetColumns (fun prev => set prev "phone" false))
                              stopped_with_repeat))
  = ["name"; "address"; "website"; "rating"; "link"] /\
  exists name lines,
    exportData (mkPage true "2026-11-02T10:11:12.345Z")
               (update (SetColumns (fun prev => set prev "phone" false))
                       stopped_with_repeat)
    = Some [Download
              (CsvFile name
                 (join (str LF) ("NAME,ADDRESS,WEBSITE,RATING,LINK"
                                 :: lines)))].
Proof.
  destruct (export_projects_enabled_columns
              (mkPage true "2026-11-02T10:11:12.345Z")
              (update (SetColumns (fun prev => set prev "phone" false))
                      stopped_with_repeat)) as (Ha & Hcsv & _).
  - discriminate.
  - reflexivity.
  - split; [rewrite Ha; reflexivity|].
    destruct Hcsv as (name & lines & Hexp & _); [discriminate|].
    exists name, lines. exact Hexp.
Defined.

End Exporting.

(* ===================================================================== *)
(** ** Reading the exported CSV back *)
(* ===================================================================== *)
Section RoundTrip.
Import Csv.

Lemma append_nil_l (a : string) : "" +:+ a = a.
Proof. reflexivity. Qed.

Lemma append_cons (c : ascii) (a b : string) :
  String c a +:+ b = String c (a +:+ b).
Proof. reflexivity. Qed.

Lemma append_nil_r (a : string) : a +:+ "" = a.
Proof.
  induction a as [|x a IH]; [reflexivity|]. now rewrite append_cons, IH.
Qed.

Lemma append_assoc (a b c : string) : (a +:+ b) +:+ c = a +:+ (b +:+ c).
Proof.
  induction a as [|x a IH]; [reflexivity|]. now rewrite !append_cons, IH.
Qed.

Ltac flatten := unfold str; rewrite ?append_assoc, ?append_cons, ?append_nil_l.

Lemma join_cons2 (sep x y : string) (r : list string) :
  join sep (x :: y :: r) = x +:+ sep +:+ join sep (y :: r).
Proof. reflexivity. Qed.

(** Inside a quoted field the reader undoes the doubling. *)
Lemma read_quoted_text (t fld : string) rec done (rest : string) :
  read Quoted fld rec done
       (replace_all is_dquote (str dquote +:+ str dquote) t
        +:+ String dquote rest)
  = read QuoteSeen (fld +:+ t) rec done rest.
Proof.
  revert fld. induction t as [|c t IH]; intros fld.
  - simpl. rewrite append_nil_r. reflexivity.
  - simpl replace_all. unfold is_dquote at 1.
    destruct (Ascii.eqb_spec c dquote) as [->|Hne].
    + flatten. simpl read. fold (str dquote). fold (str dquote +:+ str dquote).
      rewrite IH. flatten. reflexivity.
    + apply Ascii.eqb_neq in Hne. flatten. simpl read. rewrite Hne.
      fold (str c). rewrite IH. flatten. reflexivity.
Qed.

Lemma read_quoted_field (st : state) (t fld : string) rec done (rest : string) :
  at_start st ->
  read st fld rec done (quoted t +:+ rest) = read QuoteSeen t rec done rest.
Proof.
  intros Hst. unfold quoted.
  rewrite !append_assoc. change (str dquote +:+ rest) with (String dquote rest).
  change (str dquote +:+ ?x) with (String dquote x).
  destruct Hst as [-> | ->]; simpl read; apply read_quoted_text.
Qed.

(** What ends a field. *)
Lemma read_comma (st : state) (fld : string) rec done (r : string) :
  st = QuoteSeen \/ st = Bare ->
  read st fld rec done ("," +:+ r) = read FieldStart "" (rec ++ [fld]) done r.
Proof. intros [-> | ->]; reflexivity. Qed.

Lemma read_LF (st : state) (fld : string) rec done (r : string) :
  st = QuoteSeen \/ st = Bare ->
  read st fld rec done (str LF +:+ r)
  = read RecordStart "" [] (done ++ [rec ++ [fld]]) r.
Proof. intros [-> | ->]; reflexivity. Qed.

Lemma read_end (st : state) (fld : string) rec done :
  st = QuoteSeen \/ st = Bare ->
  read st fld rec done "" = Some (done ++ [rec ++ [fld]]).
Proof. intros [-> | ->]; reflexivity. Qed.

Lemma last_cons {A} (l : list A) (x d : A) :
  List.last (x :: l) d = List.last l x.
Proof.
  revert x d. induction l as [|y l IH]; intros x d; [reflexivity|].
  change (List.last (x :: y :: l) d) with (List.last (y :: l) d).
  rewrite (IH y d), (IH y x). reflexivity.
Qed.

(** A line of quoted fields, up to the end of its last field. *)
Lemma read_quoted_line (ts : list string) (t : string) (st : state)
      (fld : string) rec done (tail : string) :
  at_start st ->
  read st fld rec done (join "," (map quoted (t :: ts)) +:+ tail)
  = read QuoteSeen (List.last ts t) (rec ++ removelast (t :: ts)) done tail.
Proof.
  revert t st fld rec. induction ts as [|u us IH]; intros t st fld rec Hst.
  - change (join "," (map quoted [t])) with (quoted t).
    rewrite read_quoted_field, app_nil_r by assumption. reflexivity.
  - change (join "," (map quoted (t :: u :: us)))
      with (quoted t +:+ "," +:+ join "," (map quoted (u :: us))).
    rewrite !append_assoc, read_quoted_field by assumption.
    rewrite read_comma by (left; reflexivity).
    rewrite IH by (right; reflexivity).
    rewrite <- app_assoc, last_cons. reflexivity.
Qed.

Lemma removelast_last {A} (l : list A) (x : A) :
  removelast (x :: l) ++ [List.last l x] = x :: l.
Proof.
  revert x. induction l as [|y l IH]; intros x; [reflexivity|].
  change (removelast (x :: y :: l)) with (x :: removelast (y :: l)).
  rewrite last_cons, <- app_comm_cons, IH. reflexivity.
Qed.

(** The lines of the records, each with at least one field. *)
Lemma read_quoted_lines (tss : list (list string)) (ts : list string)
      (fld : string) done :
  ts <> [] -> Forall (fun ts => ts <> []) tss ->
  read RecordStart fld [] done
       (join (str LF) (map (fun ts => join "," (map quoted ts)) (ts :: tss)))
  = Some (done ++ ts :: tss).
Proof.
  revert ts fld done.
  induction tss as [|us tss IH]; intros ts fld done Hts Htss.
  - destruct ts as [|t ts]; [congruence|].
    change (join (str LF) (map ?f [t :: ts])) with (f (t :: ts)). cbv beta.
    rewrite <- (append_nil_r (join "," _)).
    rewrite read_quoted_line by (left; reflexivity).
    rewrite read_end by (left; reflexivity).
    rewrite app_nil_l, removelast_last. reflexivity.
  - destruct ts as [|t ts]; [congruence|].
    change (join (str LF) (map ?f ((t :: ts) :: us :: tss)))
      with (f (t :: ts) +:+ str LF +:+ join (str LF) (map f (us :: tss))).
    cbv beta.
    rewrite read_quoted_line by (left; reflexivity).
    rewrite read_LF by (left; reflexivity).
    rewrite app_nil_l, removelast_last.
    apply Forall_cons in Htss. destruct Htss as [Hus Htss].
    rewrite IH by assumption. rewrite <- app_assoc. reflexivity.
Qed.

Lemma bare_char_false (c : ascii) :
  bare_char c = true ->
  Ascii.eqb c dquote = false /\ Ascii.eqb c comma = false /\
  Ascii.eqb c LF = false /\ Ascii.eqb c CR = false.
Proof.
  unfold bare_char. rewrite negb_true_iff, !orb_false_iff. tauto.
Qed.

Lemma read_bare_text (t fld : string) rec done (tail : string) :
  bare t = true ->
  read Bare fld rec done (t +:+ tail) = read Bare (fld +:+ t) rec done tail.
Proof.
  revert fld. induction t as [|c t IH]; intros fld Hb.
  - rewrite append_nil_r. reflexivity.
  - cbn [bare] in Hb. apply andb_true_iff in Hb. destruct Hb as [Hc Ht].
    apply bare_char_false in Hc. destruct Hc as (H1 & H2 & H3 & H4).
    rewrite append_cons. cbn [read]. rewrite H1, H2, H3, H4.
    rewrite IH by assumption. flatten. reflexivity.
Qed.

Lemma read_header_name (st : state) (h fld : string) rec done (tail : string) :
  at_start st -> header_name h = true ->
  read st fld rec done (h +:+ tail) = read Bare h rec done tail.
Proof.
  intros Hst Hh. unfold header_name in Hh. apply andb_true_iff in Hh.
  destruct Hh as [Hne Hb]. destruct h as [|c h]; [discriminate|].
  cbn [bare] in Hb. apply andb_true_iff in Hb. destruct Hb as [Hc Ht].
  apply bare_char_false in Hc. destruct Hc as (H1 & H2 & H3 & H4).
  rewrite append_cons.
  destruct Hst as [-> | ->]; cbn [read]; rewrite H1, H2, H3, H4;
    rewrite read_bare_text by assumption; reflexivity.
Qed.

(** The header line, up to the end of its last name. *)
Lemma read_header_line (hs : list string) (h : string) (st : state)
      (fld : string) rec done (tail : string) :
  at_start st -> Forall (fun h => header_name h = true) (h :: hs) ->
  read st fld rec done (join "," (h :: hs) +:+ tail)
  = read Bare (List.last hs h) (rec ++ removelast (h :: hs)) done tail.
Proof.
  revert h st fld rec. induction hs as [|u us IH]; intros h st fld rec Hst Hh.
  - apply Forall_cons in Hh. destruct Hh as [Hh _].
    change (join "," [h]) with h.
    rewrite read_header_name, app_nil_r by assumption. reflexivity.
  - apply Forall_cons in Hh. destruct Hh as [Hh Hus].
    rewrite join_cons2, !append_assoc, read_header_name by assumption.
    rewrite read_comma by (right; reflexivity).
    rewrite IH by (assumption || (right; reflexivity)).
    rewrite <- app_assoc, last_cons. reflexivity.
Qed.

Lemma canonical_header_names :
  Forall (fun col => header_name (toUpperCase col) = true) canonical.
Proof. repeat constructor. Qed.

Lemma active_header_names (cols : object bool) :
  keys cols = canonical ->
  Forall (fun h => header_name h = true) (map toUpperCase (activeCols cols)).
Proof.
  intros Hk. apply Forall_fmap, Forall_forall. intros col Hin.
  unfold activeCols in Hin. rewrite Hk in Hin.
  apply list_elem_of_In, filter_In in Hin. destruct Hin as [Hin _].
  apply list_elem_of_In in Hin.
  exact (proj1 (Forall_forall _ _) canonical_header_names col Hin).
Qed.

(** The whole file: the header line, then the lines of the records. *)
Lemma parse_csv (hs : list string) (tss : list (list string)) :
  hs <> [] -> Forall (fun h => header_name h = true) hs ->
  tss <> [] -> Forall (fun ts => ts <> []) tss ->
  parse (join (str LF)
              (join "," hs :: map (fun ts => join "," (map quoted ts)) tss))
  = Some (hs :: tss).
Proof.
  intros Hhs Hnames Htss Hne.
  destruct hs as [|h hs]; [congruence|]. destruct tss as [|ts tss]; [congruence|].
  apply Forall_cons in Hne. destruct Hne as [Hts Hne].
  unfold parse.
  change (join (str LF) (?hd :: map ?f (ts :: tss)))
    with (hd +:+ str LF +:+ join (str LF) (map f (ts :: tss))).
  rewrite read_header_line by (assumption || (left; reflexivity)).
  rewrite read_LF by (right; reflexivity).
  rewrite !app_nil_l, removelast_last.
  apply read_quoted_lines; assumption.
Qed.

(** C8. Under a mask on the six columns with at least one enabled, the CSV
    export of a non-empty buffer reads back, through an RFC 4180 reader, as
    the upper-cased names of the enabled columns followed by one record per
    buffered record, in order, whose fields are the texts of the values of
    the enabled columns; the text of a string is that string and the text
    of an absent field is empty. *)
Theorem csv_export_reads_back (p : Page) (s : AppState) :
  rows s <> [] ->
  exportFormat s <> "xlsx" ->
  keys (columns s) = canonical ->
  activeCols (columns s) <> [] ->
  (exists name content,
     exportData p s = Some [Download (CsvFile name content)] /\
     parse content =
       Some (map toUpperCase (activeCols (columns s))
             :: map (fun row => map (fun col => field_text (prop row col))
                                    (activeCols (columns s)))
                    (rows s))) /\
  (forall (row : Row) (col t : string),
     row !! col = Some (VStr t) -> field_text (prop row col) = t) /\
  (forall (row : Row) (col : string),
     row !! col = None -> field_text (prop row col) = "").
Proof.
  intros Hr Hf Hk Ha. split; [|split].
  - rewrite (exportData_csv p s Hr Hf). eexists. eexists.
    split; [reflexivity|].
    set (active := activeCols (columns s)) in *.
    replace (map (fun row => join "," (csv_fields active row)) (rows s))
      with (map (fun ts => join "," (map quoted ts))
                (map (fun row => map (fun col => field_text (prop row col))
                                     active) (rows s))).
    + apply parse_csv.
      * intros H. apply Ha. now apply map_eq_nil in H.
      * apply active_header_names, Hk.
      * intros H. apply Hr. now apply map_eq_nil in H.
      * apply Forall_fmap, Forall_forall. intros row _ H.
        apply Ha. now apply map_eq_nil in H.
    + rewrite map_map. apply map_ext. intros row. unfold csv_fields.
      now rewrite map_map.
  - intros row col t Hl. unfold prop. rewrite Hl. apply field_text_string.
  - intros row col Hl. unfold prop. rewrite Hl. reflexivity.
Qed.

Lemma csv_export_reads_back_witness :
  exists name content,
    exportData (mkPage true "2026-11-02T10:11:12.345Z") stopped_with_repeat
      = Some [Download (CsvFile name content)] /\
    parse content =
      Some [ ["NAME"; "ADDRESS"; "PHONE"; "WEBSITE"; "RATING"; "LINK"];
             ["Cafe A"; ""; ""; ""; ""; "https://maps.example/a"];
             ["Cafe A"; ""; ""; ""; ""; "https://maps.example/a"];
             ["Cafe B"; ""; ""; ""; ""; "N/A"] ].
Proof.
  destruct (csv_export_reads_back (mkPage true "2026-11-02T10:11:12.345Z")
                                  stopped_with_repeat)
    as ((name & content & Hexp & Hparse) & _); try discriminate.
  - reflexivity.
  - exists name, content. split; [exact Hexp | exact Hparse].
Defined.

End RoundTrip.

(* ===================================================================== *)
(** ** Beyond the start and the export: what each event may touch *)
(* ===================================================================== *)
Section Events.
Import View Trace.

(** The five ways [toggleScrape] can go. *)
Lemma toggleScrape_cases (s : AppState) :
  (socket s = false /\ toggleScrape s = []) \/
  (start_request s /\ trim (keyword s) = "" /\
   toggleScrape s = [addLog "> Error: Keyword required."]) \/
  (start_request s /\ trim (keyword s) <> "" /\
   trim (keyword s) <> lastKeyword s /\
   toggleScrape s =
     [ setRows []; setLogs []; SetLiveImage None;
       SetLastKeyword (trim (keyword s));
       addLog ("> Starting NEW session for: " +:+ str dquote
               +:+ trim (keyword s) +:+ str dquote);
       SocketSend (Start (trim (keyword s)) (headless s) []) ]) \/
  (start_request s /\ trim (keyword s) <> "" /\
   trim (keyword s) = lastKeyword s /\
   toggleScrape s =
     [ addLog ("> RESUMING session for: " +:+ str dquote
               +:+ trim (keyword s) +:+ str dquote);
       addLog ("> Sending "
               +:+ nat_toString (length (existing_links (rows s)))
               +:+ " existing links to skip.");
       SocketSend (Start (trim (keyword s)) (headless s)
                         (existing_links (rows s))) ]) \/
  (socket s = true /\ status s <> "IDLE" /\ status s <> "STOPPED" /\
   toggleScrape s = [SocketSend Stop]).
Proof.
  destruct (socket s) eqn:Hso.
  2: { left. split; [reflexivity|]. unfold toggleScrape. now rewrite Hso. }
  right.
  destruct (String.eqb_spec (status s) "IDLE") as [Hi|Hi];
    [|destruct (String.eqb_spec (status s) "STOPPED") as [Hs|Hs]].
  3: { do 3 right. repeat split; auto. now apply toggleScrape_stop. }
  all: assert (Hreq : start_request s) by (split; auto);
    destruct (String.eqb_spec (trim (keyword s)) "") as [Hk|Hk];
    [ left; repeat split; auto; now apply toggleScrape_blank
    | right;
      destruct (String.eqb_spec (trim (keyword s)) (lastKeyword s)) as [Hl|Hl];
      [ right; left; repeat split; auto; now apply toggleScrape_resume
      | left; repeat split; auto; now apply toggleScrape_new ] ].
Qed.

(** [exportData] ends in one alert or in one download. *)
Lemma exportData_cases (p : Page) (s : AppState) :
  (exists msg, exportData p s = Some [Alert msg]) \/
  (exists f, exportData p s = Some [Download f]).
Proof.
  unfold exportData. destruct (Nat.eqb _ _); [left; eauto|].
  destruct (String.eqb _ _).
  - destruct (negb (XLSX p)); [left | right]; eauto.
  - rewrite csvContent_lines. right. simpl. eauto.
Qed.

(** X5. Until the connection effect has stored the socket, the button and
    the Enter key do nothing at all. *)
Theorem click_without_socket_does_nothing (w : World) :
  socket (app w) = false ->
  click w = w /\ forall key, handleKeyDown key (app w) = [].
Proof.
  intros Hso.
  assert (Ht : toggleScrape (app w) = []).
  { unfold toggleScrape. now rewrite Hso. }
  split.
  - rewrite click_run, Ht. reflexivity.
  - intros key. unfold handleKeyDown. rewrite Ht. now destruct (String.eqb _ _).
Qed.

Lemma click_without_socket_does_nothing_witness :
  click (step boot (KeywordInput "Coffee NYC"))
  = step boot (KeywordInput "Coffee NYC").
Proof.
  apply (click_without_socket_does_nothing (step boot (KeywordInput "Coffee NYC"))).
  reflexivity.
Defined.

Lemma sent_unchanged (w : World) (e : Event) :
  e <> ToggleClick -> sent (step w e) = sent w.
Proof.
  intros He. unfold step.
  destruct e as [| |msg| |v|v| |col|v|v|v|p]; try congruence;
    try (destruct w as [[] ? ? ?]; reflexivity).
  - destruct msg, w as [[] ? ? ?]; reflexivity.
  - simpl. case_bool_decide; destruct w as [[] ? ? ?]; reflexivity.
  - simpl. destruct (exportData_cases p (app w)) as [[m ->] | [f ->]];
      reflexivity.
Qed.

Lemma alerts_files_unchanged (w : World) (e : Event) :
  (forall p, e <> ExportClick p) ->
  alerts (step w e) = alerts w /\ files (step w e) = files w.
Proof.
  intros He. unfold step.
  destruct e as [| |msg| |v|v| |col|v|v|v|p];
    try (destruct w as [[] ? ? ?]; split; reflexivity).
  - destruct msg, w as [[] ? ? ?]; split; reflexivity.
  - simpl.
    destruct (toggleScrape_cases (app w))
      as [[_ ->] | [(_ & _ & ->) | [(_ & _ & _ & ->)
         | [(_ & _ & _ & ->) | (_ & _ & _ & ->)]]]];
      destruct w as [[] ? ? ?]; split; reflexivity.
  - simpl. case_bool_decide; destruct w as [[] ? ? ?]; split; reflexivity.
  - exfalso. apply (He p). reflexivity.
Qed.

(** X2. Frames leave the page only through the START/STOP button, and
    alerts and files come only from the export button: no other event
    sends, alerts or writes. *)
Theorem only_the_buttons_reach_outside (w : World) (e : Event) :
  (e <> ToggleClick -> sent (step w e) = sent w) /\
  ((forall p, e <> ExportClick p) ->
   alerts (step w e) = alerts w /\ files (step w e) = files w).
Proof.
  split; [apply sent_unchanged | apply alerts_files_unchanged].
Qed.

Lemma only_the_buttons_reach_outside_witness :
  sent (step (world_of stopped_with_repeat)
             (ExportClick (mkPage true "2026-11-02T10:11:12.345Z"))) = [] /\
  alerts (step (world_of stopped_blank) ToggleClick) = [].
Proof.
  split.
  - apply (only_the_buttons_reach_outside (world_of stopped_with_repeat)).
    discriminate.
  - apply (only_the_buttons_reach_outside (world_of stopped_blank) ToggleClick).
    discriminate.
Defined.

(** What an event other than a frame, a close or a click on START/STOP
    leaves alone. *)
Lemma quiet_event (w : World) (e : Event) :
  (forall msg, e <> SocketMessage msg) -> e <> SocketClose ->
  e <> ToggleClick ->
  status (app (step w e)) = status (app w) /\
  rows (app (step w e)) = rows (app w) /\
  lastKeyword (app (step w e)) = lastKeyword (app w).
Proof.
  intros Hm Hc Ht. unfold step.
  destruct e as [| |msg| |v|v| |col|v|v|v|p]; try congruence;
    try (exfalso; apply (Hm msg); reflexivity);
    try (destruct w as [[] ? ? ?]; repeat split; reflexivity).
  - simpl. case_bool_decide; destruct w as [[] ? ? ?]; repeat split.
  - simpl. destruct (exportData_cases p (app w)) as [[m ->] | [f ->]];
      destruct w as [[] ? ? ?]; repeat split.
Qed.

(** What a click on START/STOP does to the status, the rows, the recorded
    keyword and the wire. *)
Lemma toggle_effect (w : World) :
  status (app (click w)) = status (app w) /\
  ((rows (app (click w)) = rows (app w) /\
    lastKeyword (app (click w)) = lastKeyword (app w) /\
    (sent (click w) = sent w \/
     sent (click w) = sent w ++ [Stop] \/
     (start_request (app w) /\ trim (keyword (app w)) <> "" /\
      trim (keyword (app w)) = lastKeyword (app w) /\
      sent (click w) =
        sent w ++ [Start (trim (keyword (app w))) (headless (app w))
                         (existing_links (rows (app w)))])))
   \/
   (start_request (app w) /\ trim (keyword (app w)) <> "" /\
    trim (keyword (app w)) <> lastKeyword (app w) /\
    rows (app (click w)) = [] /\
    lastKeyword (app (click w)) = trim (keyword (app w)) /\
    sent (click w) =
      sent w ++ [Start (trim (keyword (app w))) (headless (app w)) []])).
Proof.
  rewrite click_run.
  destruct (toggleScrape_cases (app w))
    as [[_ ->] | [(_ & _ & ->) | [(Hs & Hk & Hl & ->)
       | [(Hs & Hk & Hl & ->) | (_ & _ & _ & ->)]]]].
  - destruct w as [[] ? ? ?].
    split; [reflexivity|]. left. repeat split. left. reflexivity.
  - destruct w as [[] ? ? ?].
    split; [reflexivity|]. left. repeat split. left. reflexivity.
  - split; [destruct w as [[] ? ? ?]; reflexivity|]. right.
    repeat split; auto; try apply Hs; destruct w as [[] ? ? ?]; reflexivity.
  - split; [destruct w as [[] ? ? ?]; reflexivity|]. left.
    split; [destruct w as [[] ? ? ?]; reflexivity|].
    split; [destruct w as [[] ? ? ?]; reflexivity|].
    right. right. repeat split; auto; try apply Hs;
      destruct w as [[] ? ? ?]; reflexivity.
  - destruct w as [[] ? ? ?].
    split; [reflexivity|]. left. repeat split. right. left. reflexivity.
Qed.

(** X3. The status shown is the engine's word: it changes only on a status
    frame or when the socket closes, never on a click. *)
Theorem status_changes_only_on_engine_word (w : World) (e : Event) :
  status (app (step w e)) <> status (app w) ->
  (exists p, e = SocketMessage (Status p)) \/ e = SocketClose.
Proof.
  intros Hne.
  destruct e as [| |msg| |v|v| |col|v|v|v|p];
    try (exfalso; apply Hne; apply quiet_event; congruence).
  - destruct msg as [l|r|p|i|]; [| |left; eauto| |];
      exfalso; apply Hne; destruct w as [[] ? ? ?]; reflexivity.
  - right. reflexivity.
  - exfalso. apply Hne. apply (toggle_effect w).
Qed.

Lemma status_changes_only_on_engine_word_witness :
  status (app (step boot SocketClose)) <> status (app boot) /\
  ((exists p, SocketClose = SocketMessage (Status p)) \/
   SocketClose = SocketClose).
Proof.
  split; [discriminate|].
  apply (status_changes_only_on_engine_word boot SocketClose). discriminate.
Defined.

(** X4. A buffered row leaves the buffer only when a start with another
    keyword clears it: every event keeps the rows, or appends the row of a
    row frame, or is that start. *)
Theorem rows_leave_only_on_new_session (w : World) (e : Event) :
  rows (app (step w e)) = rows (app w) \/
  (exists r, e = SocketMessage (RowFrame r) /\
             rows (app (step w e)) = rows (app w) ++ [r]) \/
  (e = ToggleClick /\ start_request (app w) /\
   trim (keyword (app w)) <> "" /\
   trim (keyword (app w)) <> lastKeyword (app w) /\
   rows (app (step w e)) = []).
Proof.
  destruct e as [| |msg| |v|v| |col|v|v|v|p];
    try (left; apply quiet_event; congruence).
  - destruct msg as [l|r|p|i|];
      [left| right; left; exists r; split; [reflexivity|] |left|left|left];
      destruct w as [[] ? ? ?]; reflexivity.
  - left. destruct w as [[] ? ? ?]; reflexivity.
  - destruct (toggle_effect w) as [_ [(Hr & _) | (Hs & Hk & Hl & Hr & _)]].
    + left. exact Hr.
    + right. right. repeat split; auto; apply Hs.
Qed.

(** One inbound frame. *)
Lemma frame_step (f : Inbound) (w : World) :
  step w (SocketMessage f) =
  mkWorld
    (mkApp (socket (app w))
           (match f with Status p => p | _ => status (app w) end)
           (match f with Log l => push_log l (logs (app w))
                       | _ => logs (app w) end)
           (match f with RowFrame r => rows (app w) ++ [r]
                       | _ => rows (app w) end)
           (keyword (app w)) (lastKeyword (app w)) (headless (app w))
           (match f with Image p => Some p | _ => liveImage (app w) end)
           (viewMode (app w)) (exportFormat (app w)) (columns (app w))
           (showColMenu (app w)))
    (sent w) (alerts w) (files w).
Proof. destruct f, w as [[] ? ? ?]; reflexivity. Qed.

(** X1. Inbound frames are applied in arrival order and each kind touches
    its own hook only: after any run of frames the rows are the old rows
    followed by the payloads of the row frames, the log is the old log with
    the log payloads pushed through the cap, the status and the live frame
    are those of the last status and image frame, and nothing else changes
    or leaves the page. *)
Theorem frames_settle_hook_by_hook (fs : list Inbound) (w : World) :
  fold_left step (map SocketMessage fs) w =
  mkWorld
    (mkApp (socket (app w))
           (last_status fs (status (app w)))
           (fold_left (fun l m => push_log m l) (log_payloads fs)
                      (logs (app w)))
           (rows (app w) ++ row_payloads fs)
           (keyword (app w)) (lastKeyword (app w)) (headless (app w))
           (last_image fs (liveImage (app w)))
           (viewMode (app w)) (exportFormat (app w)) (columns (app w))
           (showColMenu (app w)))
    (sent w) (alerts w) (files w).
Proof.
  revert w. induction fs as [|f fs IH]; intros w.
  - simpl. rewrite app_nil_r. destruct w as [[] ? ? ?]; reflexivity.
  - cbn [map fold_left]. rewrite IH, frame_step.
    unfold last_status, last_image, row_payloads, log_payloads.
    destruct f; cbn [omap fold_left app sent alerts files socket status logs
                     rows keyword lastKeyword headless liveImage viewMode
                     exportFormat columns showColMenu];
      rewrite <- ?app_assoc; reflexivity.
Qed.

Lemma fold_row_frames (rs : list Row) (w : World) :
  fold_left step (map (fun r => SocketMessage (RowFrame r)) rs) w =
  mkWorld (update (SetRows (fun prev => prev ++ rs)) (app w))
          (sent w) (alerts w) (files w).
Proof.
  revert w. induction rs as [|r rs IH]; intros w.
  - destruct w as [[] ? ? ?]; simpl. now rewrite app_nil_r.
  - cbn [map fold_left]. rewrite IH, frame_step.
    destruct w as [[] ? ? ?]; simpl. now rewrite <- app_assoc.
Qed.

(** X6. A whole run: connect, type a keyword with something in it, start,
    receive rows while running, stop, start again with the keyword
    untouched. The wire then carries a start with an empty skip-list, a
    stop, and a start whose skip-list is the usable links of the rows
    received; the buffer holds those rows, in order. *)
Theorem start_stop_resume_run (k : string) (rs : list Row) :
  trim k <> "" ->
  sent (fold_left step (start_stop_resume k rs) boot) =
    [Start (trim k) true []; Stop; Start (trim k) true (existing_links rs)] /\
  rows (app (fold_left step (start_stop_resume k rs) boot)) = rs /\
  lastKeyword (app (fold_left step (start_stop_resume k rs) boot)) = trim k.
Proof.
  intros Hk. unfold start_stop_resume.
  set (announce := "> Starting NEW session for: " +:+ str dquote
                   +:+ trim k +:+ str dquote).
  set (w0 := mkWorld (mkApp true "IDLE" ["> Connected to Scraper Engine."] []
                            k "" true None "live" "xlsx" (columns init) false)
                     [] [] []).
  set (w3 := mkWorld (mkApp true "RUNNING" [announce] rs k (trim k) true None
                            "live" "xlsx" (columns init) false)
                     [Start (trim k) true []] [] []).
  set (w5 := mkWorld (mkApp true "STOPPED" [announce] rs k (trim k) true None
                            "live" "xlsx" (columns init) false)
                     [Start (trim k) true []; Stop] [] []).
  assert (H0 : click w0 =
               mkWorld (mkApp true "IDLE" [announce] [] k (trim k) true None
                              "live" "xlsx" (columns init) false)
                       [Start (trim k) true []] [] []).
  { rewrite click_run, (toggleScrape_new (app w0));
      [ reflexivity | split; [reflexivity | left; reflexivity] | exact Hk
      | intros H; apply Hk; exact H ]. }
  assert (H3 : click w3 = mkWorld (app w3) [Start (trim k) true []; Stop] [] []).
  { rewrite click_run, toggleScrape_stop by (reflexivity || discriminate).
    reflexivity. }
  assert (H5 : click w5 =
               run (toggleScrape (app w5)) w5) by apply click_run.
  rewrite toggleScrape_resume in H5;
    [| split; [reflexivity | right; reflexivity] | exact Hk | reflexivity].
  assert (H2 : fold_left step [Mounted; SocketOpen; KeywordInput k; ToggleClick;
                               SocketMessage (Status "RUNNING")] boot
               = mkWorld (mkApp true "RUNNING" [announce] [] k (trim k) true
                                None "live" "xlsx" (columns init) false)
                         [Start (trim k) true []] [] []).
  { cbn [fold_left].
    change (step (step (step boot Mounted) SocketOpen) (KeywordInput k)) with w0.
    change (step w0 ToggleClick) with (click w0). rewrite H0. reflexivity. }
  rewrite !fold_left_app, H2, fold_row_frames.
  change (mkWorld (update _ _) _ _ _) with w3.
  cbn [fold_left].
  change (step w3 ToggleClick) with (click w3). rewrite H3.
  change (step _ (SocketMessage (Status "STOPPED"))) with w5.
  change (step w5 ToggleClick) with (click w5). rewrite H5.
  repeat split.
Qed.

Lemma start_stop_resume_run_witness :
  sent (fold_left step
          (start_stop_resume " Coffee NYC "
             [listing "Cafe A" "https://maps.example/a";
              listing "Cafe B" "N/A";
              listing "Cafe C" "https://maps.example/c"]) boot)
  = [Start "Coffee NYC" true []; Stop;
     Start "Coffee NYC" true
           [VStr "https://maps.example/a"; VStr "https://maps.example/c"]].
Proof.
  destruct (start_stop_resume_run " Coffee NYC "
              [listing "Cafe A" "https://maps.example/a";
               listing "Cafe B" "N/A";
               listing "Cafe C" "https://maps.example/c"]) as (Hsent & _).
  - vm_compute. discriminate.
  - exact Hsent.
Defined.

(** [trim] twice is [trim] once. *)
Lemma trimEnd_idem (s : string) : trimEnd (trimEnd s) = trimEnd s.
Proof.
  induction s as [|c s IH]; [reflexivity|].
  cbn [trimEnd].
  destruct (is_white_space c && (trimEnd s =? "")%string) eqn:Hc;
    [reflexivity|].
  cbn [trimEnd]. rewrite IH, Hc. reflexivity.
Qed.

Lemma trimStart_cases (s : string) :
  trimStart s = "" \/
  exists c r, trimStart s = String c r /\ is_white_space c = false.
Proof.
  induction s as [|c s IH]; [left; reflexivity|].
  cbn [trimStart]. destruct (is_white_space c) eqn:Hc; [exact IH|].
  right. eauto.
Qed.

Lemma trim_idem (s : string) : trim (trim s) = trim s.
Proof.
  unfold trim. destruct (trimStart_cases s) as [-> | (c & r & -> & Hc)];
    [reflexivity|].
  cbn [trimEnd]. rewrite Hc. cbn [andb trimStart]. rewrite Hc.
  cbn [trimEnd]. rewrite Hc, trimEnd_idem. reflexivity.
Qed.

Lemma last_start_keyword_snoc (ms : list Outbound) (m : Outbound) :
  last_start_keyword (ms ++ [m]) =
  match m with Start k _ _ => k | Stop => last_start_keyword ms end.
Proof. unfold last_start_keyword. rewrite fold_left_app. reflexivity. Qed.

Lemma existing_links_usable (rs : list Row) :
  Forall (fun v => toBoolean v = true /\ v <> VStr "N/A") (existing_links rs).
Proof.
  apply Forall_forall. intros v Hv. apply existing_links_elem in Hv. tauto.
Qed.

Lemma wire_invariant_step (w : World) (e : Event) :
  wire_invariant w -> wire_invariant (step w e).
Proof.
  intros [Hlast Hwf]. unfold wire_invariant.
  assert (Hdec : e = ToggleClick \/ e <> ToggleClick)
    by (destruct e; ((left; reflexivity) || (right; discriminate))).
  destruct Hdec as [-> | He].
  - change (step w ToggleClick) with (click w).
    destruct (toggle_effect w)
      as [_ [(_ & Hl & [Hs | [Hs | (Hreq & Hk & Hkl & Hs)]])
            | (Hreq & Hk & Hkl & _ & Hl & Hs)]];
      rewrite Hl, Hs; try rewrite last_start_keyword_snoc.
    + split; assumption.
    + split; [assumption|]. apply Forall_app_2; [assumption|].
      repeat constructor.
    + split; [symmetry; assumption|]. apply Forall_app_2; [assumption|].
      apply Forall_cons_2; [|apply Forall_nil_2].
      repeat split; [assumption | apply trim_idem | apply existing_links_usable].
    + split; [reflexivity|]. apply Forall_app_2; [assumption|].
      apply Forall_cons_2; [|apply Forall_nil_2].
      repeat split; [assumption | apply trim_idem | apply Forall_nil_2].
  - rewrite (sent_unchanged w e He). split; [|assumption]. rewrite <- Hlast.
    destruct e as [| |msg| |v|v| |col|v|v|v|p]; try congruence;
      try (apply quiet_event; congruence).
    + destruct msg, w as [[] ? ? ?]; reflexivity.
    + destruct w as [[] ? ? ?]; reflexivity.
Qed.

(** X7. In every state the page can reach, the recorded keyword is the
    keyword of the last start frame sent (empty before the first), and every
    start frame sent carries a keyword that is trimmed and not empty and a
    skip-list of truthy links without the sentinel. *)
Theorem recorded_keyword_is_last_start (w : World) :
  reachable w ->
  lastKeyword (app w) = last_start_keyword (sent w) /\
  Forall well_formed (sent w).
Proof.
  intros [es ->]. induction es as [|e es IH] using rev_ind.
  - split; [reflexivity | apply Forall_nil_2].
  - rewrite fold_left_app. apply (wire_invariant_step _ e IH).
Qed.

Lemma recorded_keyword_is_last_start_witness :
  lastKeyword (app (fold_left step
                      [Mounted; SocketOpen; KeywordInput " Gyms NYC";
                       ToggleClick] boot))
  = last_start_keyword
      (sent (fold_left step
               [Mounted; SocketOpen; KeywordInput " Gyms NYC"; ToggleClick]
               boot)).
Proof.
  apply (recorded_keyword_is_last_start
           (fold_left step [Mounted; SocketOpen; KeywordInput " Gyms NYC";
                            ToggleClick] boot)).
  exists [Mounted; SocketOpen; KeywordInput " Gyms NYC"; ToggleClick].
  reflexivity.
Defined.

End Events.

(* ===================================================================== *)
(** ** The column menu *)
(* ===================================================================== *)
Section Columns.

Lemma get_set_eq {V} (o : object V) (k : string) (v : V) :
  get (set o k v) k = Some v.
Proof.
  induction o as [|[k' v'] o IH]; simpl.
  - now rewrite String.eqb_refl.
  - destruct (String.eqb_spec k' k) as [->|Hne]; simpl.
    + now rewrite String.eqb_refl.
    + apply String.eqb_neq in Hne. now rewrite Hne.
Qed.

Lemma get_set_ne {V} (o : object V) (k k' : string) (v : V) :
  k' <> k -> get (set o k v) k' = get o k'.
Proof.
  intros Hne. induction o as [|[k0 v0] o IH]; simpl.
  - destruct (String.eqb_spec k k'); [congruence | reflexivity].
  - destruct (String.eqb_spec k0 k) as [->|Hk]; simpl.
    + destruct (String.eqb_spec k k'); [congruence | reflexivity].
    + destruct (String.eqb_spec k0 k'); [reflexivity | exact IH].
Qed.

Lemma set_set {V} (o : object V) (k : string) (v v' : V) :
  set (set o k v) k v' = set o k v'.
Proof.
  induction o as [|[k0 v0] o IH]; simpl.
  - now rewrite String.eqb_refl.
  - destruct (String.eqb_spec k0 k) as [->|Hk]; simpl.
    + now rewrite String.eqb_refl.
    + apply String.eqb_neq in Hk. rewrite Hk. now rewrite IH.
Qed.

Lemma set_get_same {V} (o : object V) (k : string) (v : V) :
  get o k = Some v -> set o k v = o.
Proof.
  induction o as [|[k0 v0] o IH]; simpl; [discriminate|].
  destruct (String.eqb_spec k0 k) as [->|Hk].
  - now intros [= ->].
  - intros H. now rewrite IH.
Qed.

Lemma get_present {V} (o : object V) (k : string) :
  k ∈ keys o -> exists v, get o k = Some v.
Proof.
  induction o as [|[k0 v0] o IH]; simpl; intros Hin; [inversion Hin|].
  destruct (String.eqb_spec k0 k) as [->|Hk]; [eauto|].
  apply IH. apply elem_of_cons in Hin. destruct Hin; congruence.
Qed.

Lemma column_click_step (w : World) (col : string) :
  col ∈ keys (columns (app w)) ->
  step w (ColumnClick col) =
  mkWorld (update (SetColumns
                     (fun prev => set prev col
                                    (negb (default false (get prev col)))))
                  (app w))
          (sent w) (alerts w) (files w).
Proof.
  intros Hin. unfold step. simpl. rewrite bool_decide_eq_true_2 by exact Hin.
  destruct w as [[] ? ? ?]; reflexivity.
Qed.

Lemma elem_of_activeCols (cols : object bool) (k : string) :
  k ∈ activeCols cols <-> k ∈ keys cols /\ default false (get cols k) = true.
Proof.
  unfold activeCols. rewrite list_elem_of_In, filter_In, <- list_elem_of_In.
  reflexivity.
Qed.

(** X8. A click on a checkbox of the column menu flips that column and no
    other: the keys keep their order, the other columns keep their value, so
    the exported columns gain or lose exactly that one; no other hook
    changes and nothing leaves the page. *)
Theorem column_click_flips_one (w : World) (col : string) :
  col ∈ keys (columns (app w)) ->
  keys (columns (app (step w (ColumnClick col)))) = keys (columns (app w)) /\
  enabled (app (step w (ColumnClick col))) col = negb (enabled (app w) col) /\
  (forall k, k <> col ->
     enabled (app (step w (ColumnClick col))) k = enabled (app w) k) /\
  (forall k, k ∈ activeCols (columns (app (step w (ColumnClick col)))) <->
     (k = col /\ enabled (app w) col = false) \/
     (k <> col /\ k ∈ activeCols (columns (app w)))) /\
  step w (ColumnClick col) =
    mkWorld (update (SetColumns
                       (fun _ => columns (app (step w (ColumnClick col)))))
                    (app w))
            (sent w) (alerts w) (files w).
Proof.
  intros Hin. rewrite (column_click_step w col Hin).
  destruct w as [[so st lo ro ke la he li vi ex co sh] se al fi].
  cbn [app update columns sent alerts files] in *. unfold enabled.
  cbn [columns].
  assert (Hkeys : keys (set co col (negb (default false (get co col))))
                  = keys co) by (apply keys_set_present, Hin).
  split; [exact Hkeys|]. split; [now rewrite get_set_eq|].
  split; [intros k Hk; now rewrite get_set_ne|]. split; [|reflexivity].
  intros k. rewrite !elem_of_activeCols, Hkeys.
  destruct (String.eqb_spec k col) as [->|Hk].
  - rewrite get_set_eq. simpl. rewrite negb_true_iff.
    split; [intros [_ H]; left; auto | intros [[_ H] | [H _]]; [auto|congruence]].
  - rewrite get_set_ne by exact Hk.
    split; [intros H; right; auto | intros [[H _] | [_ H]]; [congruence|auto]].
Qed.

Lemma column_click_flips_one_witness :
  activeCols (columns (app (step (world_of stopped_with_repeat)
                                 (ColumnClick "phone"))))
  = ["name"; "address"; "website"; "rating"; "link"] /\
  enabled (app (step (world_of stopped_with_repeat) (ColumnClick "phone")))
          "phone" = false.
Proof.
  destruct (column_click_flips_one (world_of stopped_with_repeat) "phone")
    as (_ & Hflip & _).
  - apply (bool_decide_unpack _). vm_compute. exact I.
  - split; [reflexivity | exact Hflip].
Defined.

(** X9. Two clicks on the same checkbox undo each other: the page is back
    in the state it was in. *)
Theorem column_click_twice_is_identity (w : World) (col : string) :
  col ∈ keys (columns (app w)) ->
  step (step w (ColumnClick col)) (ColumnClick col) = w.
Proof.
  intros Hin. rewrite (column_click_step w col Hin).
  rewrite column_click_step.
  - destruct w as [[so st lo ro ke la he li vi ex co sh] se al fi].
    cbn [app update columns sent alerts files] in *.
    destruct (get_present co col Hin) as [b Hb].
    rewrite get_set_eq, Hb. simpl. rewrite negb_involutive, set_set.
    now rewrite (set_get_same co col b Hb).
  - destruct w as [[so st lo ro ke la he li vi ex co sh] se al fi].
    cbn [app update columns] in *. rewrite keys_set_present; exact Hin.
Qed.

Lemma column_click_twice_is_identity_witness :
  step (step (world_of stopped_with_repeat) (ColumnClick "rating"))
       (ColumnClick "rating")
  = world_of stopped_with_repeat.
Proof.
  apply (column_click_twice_is_identity (world_of stopped_with_repeat) "rating").
  apply (bool_decide_unpack _). vm_compute. exact I.
Defined.

End Columns.

(* ===================================================================== *)
(** ** More on the export *)
(* ===================================================================== *)
Section ExportEdges.
Import Trace Csv.

(** X10. A click on EXPORT never ends in an exception: it shows exactly one
    alert or hands over exactly one file, changes no hook and sends
    nothing. *)
Theorem export_click_alerts_or_downloads (p : Page) (w : World) :
  app (step w (ExportClick p)) = app w /\
  sent (step w (ExportClick p)) = sent w /\
  ((exists msg, handler (ExportClick p) (app w) = Some [Alert msg] /\
                alerts (step w (ExportClick p)) = alerts w ++ [msg] /\
                files (step w (ExportClick p)) = files w) \/
   (exists f, handler (ExportClick p) (app w) = Some [Download f] /\
              files (step w (ExportClick p)) = files w ++ [f] /\
              alerts (step w (ExportClick p)) = alerts w)).
Proof.
  unfold step. cbn [handler].
  destruct (exportData_cases p (app w)) as [[msg ->] | [f ->]].
  - repeat split. left. exists msg. repeat split.
  - repeat split. right. exists f. repeat split.
Qed.

(** X11. The spreadsheet export of a non-empty buffer before the library
    has loaded shows the loading alert and writes nothing; the CSV export
    does not look at the library. *)
Theorem export_waits_for_library (p : Page) (s : AppState) :
  rows s <> [] ->
  (exportFormat s = "xlsx" -> XLSX p = false ->
   exportData p s = Some [Alert "Export library loading... Try again in 2s."]) /\
  (exportFormat s <> "xlsx" ->
   exportData p s = exportData (mkPage (negb (XLSX p)) (now p)) s /\
   exists f, exportData p s = Some [Download f]).
Proof.
  intros Hr. split.
  - intros Hf Hx. unfold exportData.
    destruct (rows s); [congruence|]. cbn [length Nat.eqb].
    rewrite Hf, Hx. reflexivity.
  - intros Hf. rewrite !(exportData_csv _ s Hr Hf). split; [reflexivity|].
    eauto.
Qed.

Lemma export_waits_for_library_witness :
  exportData (mkPage false "2026-11-02T10:11:12.345Z")
             (update (SetExportFormat "xlsx") stopped_with_repeat)
  = Some [Alert "Export library loading... Try again in 2s."].
Proof.
  destruct (export_waits_for_library
              (mkPage false "2026-11-02T10:11:12.345Z")
              (update (SetExportFormat "xlsx") stopped_with_repeat))
    as (Hx & _).
  - discriminate.
  - apply Hx; reflexivity.
Defined.

Lemma replace_all_one_length (p : ascii -> bool) (c : ascii) (s : string) :
  String.length (replace_all p (String c "") s) = String.length s.
Proof.
  induction s as [|x s IH]; [reflexivity|].
  cbn [replace_all]. destruct (p x);
    rewrite ?append_cons, ?append_nil_l; cbn [String.length]; now rewrite IH.
Qed.

Lemma replace_all_one_chars (p : ascii -> bool) (c : ascii) (s : string) (x : ascii) :
  In x (list_ascii_of_string (replace_all p (String c "") s)) ->
  x = c \/ p x = false.
Proof.
  induction s as [|y s IH]; [intros []|].
  cbn [replace_all]. destruct (p y) eqn:Hy.
  - rewrite append_cons, append_nil_l.
    intros [<- | H]; [left; reflexivity | exact (IH H)].
  - intros [<- | H]; [right; exact Hy | exact (IH H)].
Qed.

Lemma substring0_length (n : nat) (s : string) :
  String.length (substring 0 n s) = min n (String.length s).
Proof.
  revert s. induction n as [|n IH]; intros [|c s]; simpl; auto.
Qed.

Lemma substring0_chars (n : nat) (s : string) (x : ascii) :
  In x (list_ascii_of_string (substring 0 n s)) ->
  In x (list_ascii_of_string s).
Proof.
  revert s. induction n as [|n IH]; intros [|c s]; simpl; try tauto.
  intros [<- | H]; [left; reflexivity | right; exact (IH _ H)].
Qed.

(** X12. Every exported file is named gmaps_export_, a stamp, .csv or
    .xlsx; the stamp is the first 19 code units of the ISO time (all of it
    when shorter) with every colon and period turned into a hyphen, so it
    holds neither. *)
Theorem export_file_name (p : Page) (s : AppState) (f : File) :
  exportData p s = Some [Download f] ->
  (file_name f = "gmaps_export_" +:+ timestamp p +:+ ".csv" \/
   file_name f = "gmaps_export_" +:+ timestamp p +:+ ".xlsx") /\
  String.length (timestamp p) = min 19 (String.length (now p)) /\
  (forall c, In c (list_ascii_of_string (timestamp p)) ->
             c <> ":"%char /\ c <> "."%char).
Proof.
  intros Hexp. split; [|split].
  - unfold exportData in Hexp.
    destruct (Nat.eqb _ _); [discriminate|].
    destruct (String.eqb _ _).
    + destruct (negb (XLSX p)); [discriminate|]. injection Hexp as <-.
      right. reflexivity.
    + rewrite csvContent_lines in Hexp. injection Hexp as <-.
      left. reflexivity.
  - unfold timestamp, slice0.
    rewrite substring0_length, replace_all_one_length. reflexivity.
  - intros c Hc. unfold timestamp, slice0 in Hc.
    apply substring0_chars, replace_all_one_chars in Hc.
    destruct Hc as [-> | Hc]; [split; discriminate|].
    unfold is_colon_or_dot in Hc. apply orb_false_iff in Hc.
    destruct Hc as [H1 H2]. apply Ascii.eqb_neq in H1, H2. auto.
Qed.

Lemma export_file_name_witness :
  String.length (timestamp (mkPage true "2026-11-02T10:11:12.345Z")) = 19.
Proof.
  destruct (export_file_name
              (mkPage true "2026-11-02T10:11:12.345Z") stopped_with_repeat
              (CsvFile "gmaps_export_2026-11-02T10-11-12.csv"
                 (default "" (csvContent (activeCols (columns stopped_with_repeat))
                                         (rows stopped_with_repeat)))))
    as (_ & Hlen & _).
  - reflexivity.
  - exact Hlen.
Defined.

Lemma join_blank_lines (n : nat) :
  join (str LF) ("" :: repeat "" n) = string_of_list_ascii (repeat LF n).
Proof.
  induction n as [|n IH]; [reflexivity|].
  change (repeat "" (S n)) with ("" :: repeat "" n).
  change (join (str LF) ("" :: "" :: repeat "" n))
    with ("" +:+ str LF +:+ join (str LF) ("" :: repeat "" n)).
  rewrite IH. reflexivity.
Qed.

(** X13. With every column unchecked the export still hands over a file:
    the CSV holds an empty header and an empty line per record, that is one
    line feed per record and nothing else; the spreadsheet holds one empty
    row per record and no column width. *)
Theorem export_with_no_column (p : Page) (s : AppState) :
  rows s <> [] -> activeCols (columns s) = [] ->
  (exportFormat s <> "xlsx" ->
   exportData p s =
     Some [Download
             (CsvFile ("gmaps_export_" +:+ timestamp p +:+ ".csv")
                      (string_of_list_ascii (repeat LF (length (rows s)))))]) /\
  (exportFormat s = "xlsx" -> XLSX p = true ->
   exportData p s =
     Some [Download
             (XlsxFile ("gmaps_export_" +:+ timestamp p +:+ ".xlsx")
                       (mkSheet "Data" (repeat [] (length (rows s))) []))]).
Proof.
  intros Hr Ha. split.
  - intros Hf. rewrite (exportData_csv p s Hr Hf), Ha.
    assert (Hl : forall rs : list Row,
                   map (fun row => join "," (csv_fields [] row)) rs
                   = repeat "" (length rs)).
    { induction rs as [|r rs IH]; [reflexivity|].
      cbn [map length repeat]. now rewrite IH. }
    rewrite Hl. change (join "," (map toUpperCase [])) with "".
    now rewrite join_blank_lines.
  - intros Hf Hx. rewrite (exportData_xlsx p s Hr Hf Hx), Ha.
    assert (Hl : forall rs : list Row,
                   map (filteredRow []) rs = repeat [] (length rs)).
    { induction rs as [|r rs IH]; [reflexivity|].
      cbn [map length repeat]. now rewrite IH. }
    now rewrite Hl.
Qed.

Lemma export_with_no_column_witness :
  exportData (mkPage true "2026-11-02T10:11:12.345Z")
             (update (SetColumns (fun _ => map (fun k => (k, false)) canonical))
                     stopped_with_repeat)
  = Some [Download
            (CsvFile "gmaps_export_2026-11-02T10-11-12.csv"
                     (String LF (String LF (String LF ""))))].
Proof.
  destruct (export_with_no_column
              (mkPage true "2026-11-02T10:11:12.345Z")
              (update (SetColumns (fun _ => map (fun k => (k, false)) canonical))
                      stopped_with_repeat)) as (Hcsv & _).
  - discriminate.
  - reflexivity.
  - apply Hcsv. discriminate.
Defined.

Lemma read_line_alone (ts : list string) :
  ts <> [] -> read RecordStart "" [] [] (join "," (map quoted ts)) = Some [ts].
Proof.
  intros Hts.
  change (join "," (map quoted ts))
    with (join (str LF) (map (fun ts => join "," (map quoted ts)) [ts])).
  rewrite read_quoted_lines by (assumption || constructor). reflexivity.
Qed.

(** X14. The CSV line of a record tells the texts of its enabled fields
    apart: two records with the same line have the same text in every
    enabled column. *)
Theorem csv_line_determines_texts (active : list string) (row row' : Row) :
  csvRow active row = csvRow active row' ->
  forall col, In col active ->
              field_text (prop row col) = field_text (prop row' col).
Proof.
  intros Heq col Hcol. rewrite !csvRow_fields in Heq. injection Heq as Heq.
  destruct active as [|a active]; [destruct Hcol|].
  assert (Hts : map (fun col => field_text (prop row col)) (a :: active)
              = map (fun col => field_text (prop row' col)) (a :: active)).
  { assert (H : Some [map (fun col => field_text (prop row col)) (a :: active)]
              = Some [map (fun col => field_text (prop row' col)) (a :: active)]).
    { rewrite <- !read_line_alone by discriminate.
      unfold csv_fields in Heq. rewrite !map_map. now rewrite Heq. }
    congruence. }
  apply in_split in Hcol. destruct Hcol as (l1 & l2 & Hl). rewrite Hl in Hts.
  rewrite !map_app in Hts. apply app_inj_1 in Hts; [|now rewrite !length_map].
  destruct Hts as [_ Hts]. now injection Hts.
Qed.

Lemma csv_line_determines_texts_witness :
  field_text (prop (listing "Cafe A" "https://maps.example/a") "name")
  = field_text (prop (<["rating" := VNum 0]>
                        (listing "Cafe A" "https://maps.example/a")) "name").
Proof.
  apply (csv_line_determines_texts canonical).
  - reflexivity.
  - left. reflexivity.
Defined.

End ExportEdges.

(* ===================================================================== *)
(** ** The endpoint and the cells that open a window *)
(* ===================================================================== *)
Section Windows.
Import View.



(** X16. The link cell opens a window for every truthy link and never
    throws; so every record counted in the skip-list opens, and so does a
    record whose link is the sentinel, which the skip-list leaves out. *)
Theorem link_cell_opens_truthy (row : Row) :
  linkClick row <> Throws /\
  (linkClick row = Nothing <-> toBoolean (prop row "link") = false) /\
  (existing_links [row] <> [] -> exists url, linkClick row = Window url) /\
  (prop row "link" = VStr "N/A" ->
   linkClick row = Window "N/A" /\ existing_links [row] = []).
Proof.
  unfold linkClick, existing_links. cbn [map List.filter].
  destruct (prop row "link") as [| |[]|n|site]; simpl.
  - repeat split; try discriminate; congruence.
  - repeat split; try discriminate; congruence.
  - repeat split; try discriminate; eauto.
  - repeat split; try discriminate; congruence.
  - destruct (n =? 0)%Z; simpl; repeat split; try discriminate; eauto;
      congruence.
  - destruct (String.eqb_spec site "") as [->|Hne]; simpl.
    + repeat split; try discriminate; congruence.
    + split; [discriminate|]. split; [split; discriminate|].
      split; [eauto|]. intros [= ->]. split; reflexivity.
Qed.

Lemma link_cell_opens_truthy_witness :
  linkClick (listing "Cafe B" "N/A") = Window "N/A" /\
  existing_links [listing "Cafe B" "N/A"] = [].
Proof.
  destruct (link_cell_opens_truthy (listing "Cafe B" "N/A")) as (_ & _ & _ & H).
  apply H. reflexivity.
Defined.

(** X17. The socket goes to the page's own host, over wss, exactly when the
    host name holds ngrok and the page was loaded over https; a host with
    ngrok on any other protocol gets plain ws on that host, and every other
    host the loopback endpoint. The path is always /ws. *)
Theorem socket_endpoint (loc : Location) :
  (startsWith "wss://" (targetUrl loc) = true <->
   includes "ngrok" (host loc) = true /\ protocol loc = "https:") /\
  (includes "ngrok" (host loc) = true ->
   targetUrl loc = "wss://" +:+ host loc +:+ "/ws" \/
   targetUrl loc = "ws://" +:+ host loc +:+ "/ws") /\
  (includes "ngrok" (host loc) = false ->
   targetUrl loc = "ws://127.0.0.1:8000/ws") /\
  exists before, targetUrl loc = before +:+ "/ws".
Proof.
  assert (Hwss : forall x, startsWith "wss://" ("wss:" +:+ "//" +:+ x) = true)
    by (intros []; reflexivity).
  assert (Hws : forall x, startsWith "wss://" ("ws:" +:+ "//" +:+ x) = false)
    by reflexivity.
  unfold targetUrl.
  destruct (includes "ngrok" (host loc)) eqn:Hn;
    [destruct (String.eqb_spec (protocol loc) "https:") as [Hp|Hp]|].
  - rewrite Hwss. split; [split; auto|]. split; [left; reflexivity|].
    split; [discriminate|]. exists ("wss:" +:+ "//" +:+ host loc).
    now rewrite !append_assoc.
  - rewrite Hws. split; [split; [discriminate | intros [_ H]; congruence]|].
    split; [right; reflexivity|]. split; [discriminate|].
    exists ("ws:" +:+ "//" +:+ host loc). now rewrite !append_assoc.
  - split; [split; [discriminate | intros [H _]; discriminate]|].
    split; [discriminate|]. split; [reflexivity|].
    exists "ws://127.0.0.1:8000". reflexivity.
Qed.

Lemma socket_endpoint_witness :
  targetUrl (mkLocation "http:" "localhost:5173") = "ws://127.0.0.1:8000/ws".
Proof.
  destruct (socket_endpoint (mkLocation "http:" "localhost:5173"))
    as (_ & _ & Hloop & _).
  apply Hloop. reflexivity.
Defined.

End Windows.
